(** * The failing-template validator of helm-unittest

    A shallow embedding of [FailedTemplateValidator] (package
    [validators]) and a verification of its documented behaviour.

    Conventions of the embedding:
    - Go [int] is [Z]; Go [string] is [string]; [[]string] is [list string].
    - Go [interface{}] values are the inductive [iface]; the unchecked type
      assertion [actual.(string)] may panic, so every function that can reach
      one returns in the [exec] monad ([Return] or [Panic]).
    - [common.K8sManifest] is [map[string]interface{}], embedded as a
      [gmap string iface]; reading an absent key yields the untyped nil.
    - The writes to standard output and to the debug log ([fmt.Println],
      [log ... Debugln]) do not take part in the returned pair and are left
      out.
    - The package [regexp] of the Go standard library and the diagnostic
      helpers of the package are interfaces (type classes); the theorems
      hold for every implementation, and concrete instances are given to run
      the validator on inputs. *)

From Stdlib Require Import ZArith String Ascii List Bool Lia.
From stdpp Require Import base decidable option list strings gmap pretty.

Local Open Scope string_scope.
Local Open Scope Z_scope.
Local Open Scope list_scope.

(** ** Go values and control effects *)

(** A dynamic value held in an [interface{}]: the untyped nil, a string, or
    a value of another dynamic type (a boolean and an integer stand for
    those). *)
Inductive iface : Type :=
  | INil
  | IString (s : string)
  | IBool (b : bool)
  | IInt (n : Z).

#[global] Instance iface_eq_dec : EqDecision iface.
Proof. solve_decision. Defined.

(** Go's [error] interface, reduced to its single method [Error()]. *)
Record error : Type := errorString { Error : string }.

(** Outcome of a Go call: a returned value, or a run-time panic. *)
Inductive exec (A : Type) : Type :=
  | Return (a : A)
  | Panic.
Arguments Return {A} a.
Arguments Panic {A}.

#[global] Instance exec_ret : MRet exec := fun A a => Return a.
#[global] Instance exec_bind : MBind exec := fun A B f m =>
  match m with
  | Return a => f a
  | Panic => Panic
  end.

(** [v.(string)]: the unchecked type assertion. *)
Definition assertString (v : iface) : exec string :=
  match v with
  | IString s => Return s
  | _ => Panic
  end.

(** [fmt.Sprintf("%s", v)] for a dynamic value. *)
Definition Sprintf_s (v : iface) : string :=
  match v with
  | INil => "%!s(<nil>)"
  | IString s => s
  | IBool b => "%!s(bool=" +:+ (if b then "true" else "false") +:+ ")"
  | IInt n => "%!s(int=" +:+ pretty n +:+ ")"
  end.

(** [cmp.Or(x, y)]: the first argument that is not the zero value. *)
Definition cmp_Or (x y : string) : string :=
  if decide (x ≠ "") then x else y.

(** ** Collaborators of the validator *)

(** The part of Go's [regexp] package that the validator calls. *)
Class RegexpPackage : Type := {
  Regexp : Type;
  Compile : string → Regexp + error;
  MatchString : Regexp → string → bool;
}.

(** What the documentation of [regexp] says of [MatchString]: it reports
    whether the subject contains any match of the expression.
    [MatchesAt p s i j] reads: the expression matches the part of the
    subject that runs from position [i] to position [j]. A match of the
    entire subject is the case where [i] is the start and [j] the end. *)
Class RegexpContract (RE : RegexpPackage) : Type := {
  MatchesAt : Regexp → string → nat → nat → Prop;
  MatchString_contains p s :
    MatchString p s = true ↔ ∃ i j, MatchesAt p s i j;
}.

(** The diagnostic helpers shared by the validators of the package
    ([errorFormat], [setFailFormat], [splitInfof]); their definitions are
    not among the sources at hand, so they are parameters. *)
Class Diagnostics : Type := {
  errorFormat : string;
  setFailFormat : bool → bool → bool → bool → string → string;
  splitInfof : string → Z → Z → list string → list string;
}.

(** Modelled from the spec: [determineSuccess] is a helper of the package
    whose definition is not among the sources. The spec describes the
    aggregation it performs: overall success starts true and any single
    manifest failure sets it false for the remainder of the evaluation. *)
Definition determineSuccess (idx : Z) (validateSuccess currentSuccess : bool) : bool :=
  validateSuccess && currentSuccess.

(** Modelled from the spec: the key under which a manifest keeps its raw
    field ([common.RAW]); the constant is declared outside the sources. *)
Definition RAW : string := "raw".

Abbreviation K8sManifest := (gmap string iface).

(** [manifest[key]] on a Go map: the zero value (nil) when absent. *)
Definition index (manifest : K8sManifest) (key : string) : iface :=
  default INil (manifest !! key).

(** Modelled from the spec: the evaluation context [ValidateContext] is
    declared outside the sources; the spec gives it an ordered manifest
    collection, a negation flag, a fail-fast flag and an optional render
    error. The validator reads the fields [Negative], [FailFast] and
    [RenderError] and obtains the collection through the method
    [getManifests], which is kept here as a projection. *)
Record ValidateContext : Type := {
  Negative : bool;
  FailFast : bool;
  RenderError : option error;
  getManifests : list K8sManifest;
}.

(** ** The validator *)

Record FailedTemplateValidator : Type := {
  ErrorMessage : string;
  ErrorPattern : string;
}.

#[global] Instance FailedTemplateValidator_eq_dec : EqDecision FailedTemplateValidator.
Proof. solve_decision. Defined.

(** [FailedTemplateValidator{}] *)
Definition zeroValidator : FailedTemplateValidator :=
  {| ErrorMessage := ""; ErrorPattern := "" |}.

Section Validator.
Context {RE : RegexpPackage} {DG : Diagnostics}.

Definition failInfo (a : FailedTemplateValidator) (actual : iface)
    (manifestIndex actualIndex : Z) (not : bool) : list string :=
  let customMessage :=
    if decide (ErrorPattern a ≠ "") then " to match" else " to equal" in
  let message := cmp_Or (ErrorMessage a) (ErrorPattern a) in
  if not then
    splitInfof (setFailFormat not false false false customMessage)
      manifestIndex actualIndex [message]
  else
    splitInfof (setFailFormat not false true false customMessage)
      manifestIndex actualIndex [message; Sprintf_s actual].

Definition validateErrorPattern (a : FailedTemplateValidator) (actual : iface)
    (manifestIndex actualIndex : Z) (context : ValidateContext)
    : exec (bool * list string) :=
  match Compile (ErrorPattern a) with
  | inr err => mret (false, splitInfof errorFormat (-1) (-1) [Error err])
  | inl p =>
      matched ← (if decide (actual ≠ INil)
                 then s ← assertString actual; mret (MatchString p s)
                 else mret false);
      if eqb matched (Negative context)
      then mret (false, failInfo a actual manifestIndex actualIndex (Negative context))
      else mret (true, [])
  end.

Definition validateErrorMessage (a : FailedTemplateValidator) (actual : iface)
    (manifestIndex actualIndex : Z) (context : ValidateContext)
    : exec (bool * list string) :=
  matched ← (if decide (actual ≠ INil)
             then s ← assertString actual; mret (bool_decide (ErrorMessage a = s))
             else mret false);
  if eqb matched (Negative context)
  then mret (false, failInfo a actual manifestIndex actualIndex (Negative context))
  else mret (true, []).

(** The body of the [for idx, manifest := range manifests] loop for one
    manifest, after the skip test: the check selected by the parameters. *)
Definition checkManifest (a : FailedTemplateValidator) (context : ValidateContext)
    (idx : Z) (manifest : K8sManifest) : exec (bool * list string) :=
  let actual := index manifest RAW in
  if decide (ErrorPattern a ≠ "") then
    validateErrorPattern a actual idx (-1) context
  else if decide (ErrorMessage a ≠ "") then
    validateErrorMessage a actual idx (-1) context
  else mret (true, []).

(** The loop of [validateManifests], from index [idx] on, carrying the two
    accumulators; [continue] is the first branch, [break] the early
    return. *)
Fixpoint validateManifests_loop (a : FailedTemplateValidator)
    (context : ValidateContext) (idx : Z) (manifests : list K8sManifest)
    (validateSuccess : bool) (validateErrors : list string)
    : exec (bool * list string) :=
  match manifests with
  | [] => mret (validateSuccess, validateErrors)
  | manifest :: rest =>
      if bool_decide (a = zeroValidator) && negb (Negative context) then
        validateManifests_loop a context (idx + 1) rest validateSuccess validateErrors
      else
        '(currentSuccess, validateSingleErrors) ← checkManifest a context idx manifest;
        let validateErrors := validateErrors ++ validateSingleErrors in
        let validateSuccess := determineSuccess idx validateSuccess currentSuccess in
        if negb validateSuccess && FailFast context then
          mret (validateSuccess, validateErrors)
        else
          validateManifests_loop a context (idx + 1) rest validateSuccess validateErrors
  end.

Definition validateManifests (a : FailedTemplateValidator)
    (manifests : list K8sManifest) (context : ValidateContext)
    : exec (bool * list string) :=
  '(validateSuccess, validateErrors) ←
    validateManifests_loop a context 0 manifests true [];
  if bool_decide (length manifests = 0%nat) && negb (Negative context) then
    mret (false, validateErrors ++
                 failInfo a (IString "No failed document") (-1) (-1) (Negative context))
  else mret (validateSuccess, validateErrors).

Definition Validate (a : FailedTemplateValidator) (context : ValidateContext)
    : exec (bool * list string) :=
  let manifests := getManifests context in
  if decide (ErrorMessage a ≠ "" ∧ ErrorPattern a ≠ "") then
    mret (false, [] ++ splitInfof errorFormat (-1) (-1)
      ["single attribute 'errorMessage' or 'errorPattern' supported at the same time"])
  else
    match RenderError context with
    | Some renderError =>
        if decide (ErrorPattern a ≠ "") then
          validateErrorPattern a (IString (Error renderError)) (-1) (-1) context
        else if decide (ErrorMessage a ≠ "") then
          validateErrorMessage a (IString (Error renderError)) (-1) (-1) context
        else mret (true, [])
    | None =>
        '(validateSuccess, errorsToAppend) ← validateManifests a manifests context;
        mret (validateSuccess, [] ++ errorsToAppend)
    end.

End Validator.

(** ** A model of Go's [regexp] on a fragment of its syntax

    The validator hands [ErrorPattern] to [regexp.Compile] and the subject
    to the method [MatchString] of the result. Both belong to the Go
    standard library. The model below covers the patterns of at most
    [maxLength] bytes made of literal ASCII characters, [.],
    concatenation, [|], grouping with parentheses, the repetitions [*], [+],
    [?] (greedy or lazy) and backslash escapes of punctuation and of
    [\a \f \n \r \t \v]. The subject is any string: it is read as UTF-8,
    rune by rune, every byte of an invalid sequence counting as the rune
    U+FFFD, as the package documents. A pattern that leaves the fragment
    (classes, counted repetition, anchors, flags, named or non-capturing
    groups, Perl classes, non-ASCII bytes, groups nested deeper than
    [maxDepth], longer patterns) is not decided here: it is handed to a
    parameter, the remainder of the package. *)
Module GoRegexp.

(** The operators of [regexp/syntax] that the fragment reaches. *)
Inductive regex : Type :=
  | NoMatch
  | EmptyMatch
  | Literal (c : ascii)
  | AnyCharNotNL
  | Concat (r1 r2 : regex)
  | Alternate (r1 r2 : regex)
  | Star (r : regex)
  | Plus (r : regex)
  | Quest (r : regex).

(** *** Runes *)

(** A Unicode code point. *)
Definition rune : Type := N.

(** [utf8.RuneError], the rune that stands for an invalid byte. *)
Definition RuneError : rune := 65533%N.

Definition newline : rune := 10%N.

Definition runeOf (c : ascii) : rune := N_of_ascii c.

Definition inRange (lo hi b : N) : bool := ((lo <=? b) && (b <=? hi))%N.

(** The table [first] of [unicode/utf8] with its accept ranges: for a
    leading byte, the length of the encoding and the bounds of the second
    byte. *)
Definition leading (b0 : N) : option (nat * N * N) :=
  if inRange 194 223 b0 then Some (2%nat, 128%N, 191%N)
  else if (b0 =? 224)%N then Some (3%nat, 160%N, 191%N)
  else if inRange 225 236 b0 then Some (3%nat, 128%N, 191%N)
  else if (b0 =? 237)%N then Some (3%nat, 128%N, 159%N)
  else if inRange 238 239 b0 then Some (3%nat, 128%N, 191%N)
  else if (b0 =? 240)%N then Some (4%nat, 144%N, 191%N)
  else if inRange 241 243 b0 then Some (4%nat, 128%N, 191%N)
  else if (b0 =? 244)%N then Some (4%nat, 128%N, 143%N)
  else None.

(** The continuation bits of a byte. *)
Definition maskx (b : N) : N := N.land b 63.

Definition rune2 (b0 b1 : N) : rune :=
  N.lor (N.shiftl (N.land b0 31) 6) (maskx b1).

Definition rune3 (b0 b1 b2 : N) : rune :=
  N.lor (N.shiftl (N.land b0 15) 12) (N.lor (N.shiftl (maskx b1) 6) (maskx b2)).

Definition rune4 (b0 b1 b2 b3 : N) : rune :=
  N.lor (N.shiftl (N.land b0 7) 18)
    (N.lor (N.shiftl (maskx b1) 12) (N.lor (N.shiftl (maskx b2) 6) (maskx b3))).

(** The runes of a string, decoded one after the other as
    [utf8.DecodeRuneInString] does: an ASCII byte is its own rune, a valid
    encoding of two to four bytes is one rune, and any other byte is
    [RuneError] and has width one. *)
Fixpoint runes (s : string) : list rune :=
  match s with
  | "" => []
  | String c0 s1 =>
      let b0 := N_of_ascii c0 in
      if (b0 <? 128)%N then b0 :: runes s1
      else
        match leading b0, s1 with
        | Some (size, lo, hi), String c1 s2 =>
            let b1 := N_of_ascii c1 in
            if inRange lo hi b1 then
              if (size <=? 2)%nat then rune2 b0 b1 :: runes s2
              else
                match s2 with
                | String c2 s3 =>
                    let b2 := N_of_ascii c2 in
                    if inRange 128 191 b2 then
                      if (size <=? 3)%nat then rune3 b0 b1 b2 :: runes s3
                      else
                        match s3 with
                        | String c3 s4 =>
                            let b3 := N_of_ascii c3 in
                            if inRange 128 191 b3
                            then rune4 b0 b1 b2 b3 :: runes s4
                            else RuneError :: runes s1
                        | "" => RuneError :: runes s1
                        end
                    else RuneError :: runes s1
                | "" => RuneError :: runes s1
                end
            else RuneError :: runes s1
        | _, _ => RuneError :: runes s1
        end
  end.

(** The language of an expression: the sequences of runes that it
    matches entirely. *)
Inductive Matches : regex → list rune → Prop :=
  | MEmpty : Matches EmptyMatch []
  | MLiteral c : Matches (Literal c) [runeOf c]
  | MAnyCharNotNL x : x ≠ newline → Matches AnyCharNotNL [x]
  | MConcat r1 r2 l1 l2 :
      Matches r1 l1 → Matches r2 l2 → Matches (Concat r1 r2) (l1 ++ l2)
  | MAlternateL r1 r2 l : Matches r1 l → Matches (Alternate r1 r2) l
  | MAlternateR r1 r2 l : Matches r2 l → Matches (Alternate r1 r2) l
  | MStarNil r : Matches (Star r) []
  | MStarApp r l1 l2 :
      Matches r l1 → Matches (Star r) l2 → Matches (Star r) (l1 ++ l2)
  | MPlus r l1 l2 :
      Matches r l1 → Matches (Star r) l2 → Matches (Plus r) (l1 ++ l2)
  | MQuestNil r : Matches (Quest r) []
  | MQuestOne r l : Matches r l → Matches (Quest r) l.

(** *** Parsing *)

Inductive ErrorCode : Type :=
  | ErrInvalidRepeatOp
  | ErrMissingParen
  | ErrMissingRepeatArgument
  | ErrTrailingBackslash
  | ErrUnexpectedParen.

Definition ErrorCode_String (code : ErrorCode) : string :=
  match code with
  | ErrInvalidRepeatOp => "invalid nested repetition operator"
  | ErrMissingParen => "missing closing )"
  | ErrMissingRepeatArgument => "missing argument to repetition operator"
  | ErrTrailingBackslash => "trailing backslash at end of expression"
  | ErrUnexpectedParen => "unexpected )"
  end.

(** [syntax.Error] and its method [Error()]. *)
Record SyntaxError : Type := { Code : ErrorCode; Expr : string }.

Definition SyntaxError_Error (e : SyntaxError) : string :=
  "error parsing regexp: " +:+ ErrorCode_String (Code e) +:+ ": `" +:+ Expr e +:+ "`".

Inductive parsed (A : Type) : Type :=
  | Parsed (a : A)
  | Failed (e : SyntaxError)
  | Unsupported.
Arguments Parsed {A} a.
Arguments Failed {A} e.
Arguments Unsupported {A}.

(** The parser keeps, for every open group, the alternatives already
    closed by a [|] and the operands of the concatenation in progress
    (most recent first). *)
Record frame : Type := { alts : list regex; operands : list regex }.

Definition emptyFrame : frame := {| alts := []; operands := [] |}.

Definition pushOperand (r : regex) (f : frame) : frame :=
  {| alts := alts f; operands := r :: operands f |}.

(** Collapse the operands of a concatenation (most recent first). *)
Definition concatOf (rs : list regex) : regex :=
  match rs with
  | [] => EmptyMatch
  | r :: rs => fold_left (fun acc x => Concat x acc) rs r
  end.

(** Collapse a frame into the alternation of its alternatives. *)
Definition alternateOf (f : frame) : regex :=
  fold_left (fun acc x => Alternate x acc) (alts f) (concatOf (operands f)).

Definition verticalBar (f : frame) : frame :=
  {| alts := concatOf (operands f) :: alts f; operands := [] |}.

Definition isRepeatOp (c : ascii) : bool :=
  bool_decide (c = "*"%char) || bool_decide (c = "+"%char) || bool_decide (c = "?"%char).

Definition repeatOf (c : ascii) (r : regex) : regex :=
  if bool_decide (c = "*"%char) then Star r
  else if bool_decide (c = "+"%char) then Plus r
  else Quest r.

(** One repetition operator [op] whose text (with its lazy mark) is
    [opText], after a previous token whose repetition text is
    [lastRepeat] (empty when it was not a repetition). *)
Definition repeat (op : ascii) (opText lastRepeat : string) (f : frame) : parsed frame :=
  if decide (lastRepeat ≠ "") then
    Failed {| Code := ErrInvalidRepeatOp; Expr := lastRepeat +:+ opText |}
  else
    match operands f with
    | [] => Failed {| Code := ErrMissingRepeatArgument; Expr := opText |}
    | r :: rs => Parsed {| alts := alts f; operands := repeatOf op r :: rs |}
    end.

Definition isalnum (c : ascii) : bool :=
  let n := nat_of_ascii c in
  ((48 <=? n) && (n <=? 57) || (65 <=? n) && (n <=? 90) || (97 <=? n) && (n <=? 122))%nat.

(** The character denoted by [\c], when the fragment covers it. *)
Definition parseEscape (c : ascii) : option ascii :=
  if bool_decide (c = "a"%char) then Some "007"%char
  else if bool_decide (c = "f"%char) then Some "012"%char
  else if bool_decide (c = "n"%char) then Some "010"%char
  else if bool_decide (c = "r"%char) then Some "013"%char
  else if bool_decide (c = "t"%char) then Some "009"%char
  else if bool_decide (c = "v"%char) then Some "011"%char
  else if (nat_of_ascii c <? 128)%nat && negb (isalnum c) then Some c
  else None.

(** Characters that start syntax outside the fragment. *)
Definition outsideFragment (c : ascii) : bool :=
  bool_decide (c = "["%char) || bool_decide (c = "{"%char)
  || bool_decide (c = "^"%char) || bool_decide (c = "$"%char)
  || (128 <=? nat_of_ascii c)%nat.

Definition maxDepth : nat := 100.

(** The parser: one pass over the pattern [t], left to right; [whole] is
    the complete pattern (quoted by the parenthesis errors), [outer] the
    frames of the enclosing groups and [f] the frame of the current one. *)
Fixpoint parseLoop (whole : string) (outer : list frame) (f : frame)
    (lastRepeat : string) (t : string) : parsed regex :=
  match t with
  | "" =>
      match outer with
      | [] => Parsed (alternateOf f)
      | _ :: _ => Failed {| Code := ErrMissingParen; Expr := whole |}
      end
  | String c rest =>
      if bool_decide (c = "("%char) then
        match rest with
        | String "?" _ => Unsupported
        | _ =>
            if (maxDepth <=? length outer)%nat then Unsupported
            else parseLoop whole (f :: outer) emptyFrame "" rest
        end
      else if bool_decide (c = "|"%char) then
        parseLoop whole outer (verticalBar f) "" rest
      else if bool_decide (c = ")"%char) then
        match outer with
        | [] => Failed {| Code := ErrUnexpectedParen; Expr := whole |}
        | g :: outer' => parseLoop whole outer' (pushOperand (alternateOf f) g) "" rest
        end
      else if isRepeatOp c then
        match rest with
        | String "?" after =>
            match repeat c (String c "?") lastRepeat f with
            | Parsed f' => parseLoop whole outer f' (String c "?") after
            | Failed e => Failed e
            | Unsupported => Unsupported
            end
        | after =>
            match repeat c (String c "") lastRepeat f with
            | Parsed f' => parseLoop whole outer f' (String c "") after
            | Failed e => Failed e
            | Unsupported => Unsupported
            end
        end
      else if bool_decide (c = "."%char) then
        parseLoop whole outer (pushOperand AnyCharNotNL f) "" rest
      else if bool_decide (c = "\"%char) then
        match rest with
        | "" => Failed {| Code := ErrTrailingBackslash; Expr := "" |}
        | String e after =>
            match parseEscape e with
            | Some lit => parseLoop whole outer (pushOperand (Literal lit) f) "" after
            | None => Unsupported
            end
        end
      else if outsideFragment c then Unsupported
      else parseLoop whole outer (pushOperand (Literal c) f) "" rest
  end.

Definition Parse (s : string) : parsed regex :=
  parseLoop s [] emptyFrame "" s.

(** *** Matching *)

(** The empty sequence belongs to the language of [r]. *)
Fixpoint nullable (r : regex) : bool :=
  match r with
  | NoMatch => false
  | EmptyMatch => true
  | Literal _ => false
  | AnyCharNotNL => false
  | Concat r1 r2 => nullable r1 && nullable r2
  | Alternate r1 r2 => nullable r1 || nullable r2
  | Star _ => true
  | Plus r => nullable r
  | Quest _ => true
  end.

(** What remains to be matched after reading the rune [x]. *)
Fixpoint derive (x : rune) (r : regex) : regex :=
  match r with
  | NoMatch => NoMatch
  | EmptyMatch => NoMatch
  | Literal c => if bool_decide (x = runeOf c) then EmptyMatch else NoMatch
  | AnyCharNotNL => if bool_decide (x = newline) then NoMatch else EmptyMatch
  | Concat r1 r2 =>
      Alternate (Concat (derive x r1) r2)
                (if nullable r1 then derive x r2 else NoMatch)
  | Alternate r1 r2 => Alternate (derive x r1) (derive x r2)
  | Star r => Concat (derive x r) (Star r)
  | Plus r => Concat (derive x r) (Star r)
  | Quest r => derive x r
  end.


(** The expression matches a prefix of the sequence. *)
Fixpoint matchPrefix (r : regex) (l : list rune) : bool :=
  nullable r ||
  match l with
  | [] => false
  | x :: l' => matchPrefix (derive x r) l'
  end.

(** The sequence contains a match of the expression, which may start at
    any rune and end before the end. *)
Fixpoint search (r : regex) (l : list rune) : bool :=
  matchPrefix r l ||
  match l with
  | [] => false
  | _ :: l' => search r l'
  end.

(** *** The package *)

Definition maxLength : nat := 1000.

Section Remainder.
Variable rest : RegexpPackage.

(** A compiled expression: of the fragment, or of the remainder. *)
Inductive compiled : Type :=
  | InFragment (r : regex)
  | Outside (q : @Regexp rest).

Definition compileOutside (expr : string) : compiled + error :=
  match @Compile rest expr with
  | inl q => inl (Outside q)
  | inr err => inr err
  end.

(** [regexp.Compile]: the parser of the fragment, and the remainder for
    the patterns that the fragment leaves undecided. *)
Definition compile (expr : string) : compiled + error :=
  if (maxLength <? String.length expr)%nat then compileOutside expr
  else
    match Parse expr with
    | Parsed r => inl (InFragment r)
    | Failed e => inr (errorString (SyntaxError_Error e))
    | Unsupported => compileOutside expr
    end.

(** [MatchString], which the documentation of the package describes as
    reporting whether the subject contains any match of the expression. *)
Definition matchString (p : compiled) (s : string) : bool :=
  match p with
  | InFragment r => search r (runes s)
  | Outside q => @MatchString rest q s
  end.

Definition withRemainder : RegexpPackage := {|
  Regexp := compiled;
  Compile := compile;
  MatchString := matchString;
|}.

(** The expression matches the part of the subject from rune [i] to rune
    [j]; for the remainder, what its own contract says. *)
Definition matchesAt (RC : RegexpContract rest) (p : compiled) (s : string)
    (i j : nat) : Prop :=
  match p with
  | InFragment r =>
      ∃ pre mid post,
        runes s = pre ++ mid ++ post
        ∧ length pre = i ∧ length (pre ++ mid) = j ∧ Matches r mid
  | Outside q => MatchesAt q s i j
  end.

End Remainder.

Arguments InFragment {rest} r.
Arguments Outside {rest} q.

(** The empty remainder: it compiles nothing. The inputs on which the
    validator is run below are patterns of the fragment, for which the
    remainder is not consulted. *)
Definition nothingElse : RegexpPackage := {|
  Regexp := Empty_set;
  Compile := fun _ => inr (errorString "pattern outside the modelled fragment");
  MatchString := fun q _ => match q with end;
|}.

(** The package on which the validator is run at concrete inputs: the
    fragment with the empty remainder. It stands for Go's package on the
    patterns of the fragment only; the properties of the validator are
    proved for every package. *)
#[export] Instance package : RegexpPackage := withRemainder nothingElse.

End GoRegexp.

(** ** A rendering of the diagnostics *)

(** Modelled from the spec: the helpers [errorFormat], [setFailFormat] and
    [splitInfof] are defined outside the sources. The spec asks that a
    diagnostic of a per-manifest failure include the manifest index and that
    negation leave the wording alone; this rendering puts the index on a
    line of its own when it is not negative, followed by the format and
    the replacements. It serves to run the validator on inputs; no theorem
    that is stated for every [Diagnostics] depends on it. *)
Module Rendering.

Definition indexLine (label : string) (i : Z) : list string :=
  if 0 <=? i then [label +:+ pretty i] else [].

#[export] Instance diagnostics : Diagnostics := {|
  errorFormat := "Error:";
  setFailFormat := fun not _ _ _ customMessage => "Expected" +:+ customMessage +:+ ":";
  splitInfof := fun format manifestIndex valuesIndex replacements =>
    indexLine "DocumentIndex: " manifestIndex ++
    indexLine "ValuesIndex: " valuesIndex ++
    format :: replacements;
|}.

End Rendering.

(** ** Vocabulary of the properties *)

Section Vocabulary.
Context {RE : RegexpPackage} {DG : Diagnostics}.

(** What either comparison answers for a nil actual value. *)
Definition nilOutcome (a : FailedTemplateValidator) (manifestIndex actualIndex : Z)
    (context : ValidateContext) : exec (bool * list string) :=
  if Negative context then Return (true, [])
  else Return (false, failInfo a INil manifestIndex actualIndex false).

(** What an empty manifest collection answers. *)
Definition emptyOutcome (a : FailedTemplateValidator) (context : ValidateContext)
    : exec (bool * list string) :=
  if Negative context then Return (true, [])
  else Return (false, failInfo a (IString "No failed document") (-1) (-1) false).

(** The raw field of the manifest is a string that the expression
    matches. *)
Definition rawMatches (p : Regexp) (manifest : K8sManifest) : bool :=
  match index manifest RAW with
  | IString s => MatchString p s
  | _ => false
  end.

(** The raw field of the manifest is absent (nil) or a string: the type
    assertion cannot panic on it. *)
Definition rawIsText (manifest : K8sManifest) : bool :=
  match index manifest RAW with
  | INil | IString _ => true
  | _ => false
  end.

(** The words of the spec: some manifest of the collection matches. *)
Definition anyManifestMatches (p : Regexp) (manifests : list K8sManifest) : bool :=
  existsb (rawMatches p) manifests.

Definition allManifestsMatch (p : Regexp) (manifests : list K8sManifest) : bool :=
  forallb (rawMatches p) manifests.




End Vocabulary.

(** ** Sample inputs *)

Module Samples.

Definition document (raw : string) : K8sManifest := {[ RAW := IString raw ]}.

Definition numbered (n : Z) : K8sManifest := {[ RAW := IInt n ]}.

Definition context (manifests : list K8sManifest) (negative failFast : bool)
    (renderError : option error) : ValidateContext :=
  {| Negative := negative; FailFast := failFast; RenderError := renderError;
     getManifests := manifests |}.

Definition withPattern (pattern : string) : FailedTemplateValidator :=
  {| ErrorMessage := ""; ErrorPattern := pattern |}.

Definition withMessage (message : string) : FailedTemplateValidator :=
  {| ErrorMessage := message; ErrorPattern := "" |}.

Definition withBoth : FailedTemplateValidator :=
  {| ErrorMessage := "no such file"; ErrorPattern := "no such.*" |}.

End Samples.

(** ** Vocabulary of the further properties *)

Section Behaviour.
Context {RE : RegexpPackage} {DG : Diagnostics}.

(** The raw field of the manifest is a string equal to [message]. *)
Definition rawEquals (message : string) (manifest : K8sManifest) : bool :=
  match index manifest RAW with
  | IString s => bool_decide (message = s)
  | _ => false
  end.

Definition anyManifestEquals (message : string) (manifests : list K8sManifest) : bool :=
  existsb (rawEquals message) manifests.

Definition allManifestsEqual (message : string) (manifests : list K8sManifest) : bool :=
  forallb (rawEquals message) manifests.

(** The verdict of the check of one manifest, when the check returns. *)
Definition checkVerdict (a : FailedTemplateValidator) (context : ValidateContext)
    (manifest : K8sManifest) : bool :=
  match checkManifest a context 0 manifest with
  | Return (ok, _) => ok
  | Panic => false
  end.

(** The validator compares: exactly one parameter is set, and when it is
    the pattern, the pattern compiles. Only then is the type assertion on
    the actual value reached. *)
Definition compares (a : FailedTemplateValidator) : Prop :=
  (ErrorMessage a = "" ∧ ErrorPattern a ≠ "" ∧ ∃ p, Compile (ErrorPattern a) = inl p)
  ∨ (ErrorPattern a = "" ∧ ErrorMessage a ≠ "").

(** The reports of an iteration: the fail diagnostic of every manifest
    whose check fails, built with the index of the manifest, in index
    order; under fail-fast, of the first such manifest only. *)
Fixpoint failureReports (a : FailedTemplateValidator) (context : ValidateContext)
    (idx : Z) (manifests : list K8sManifest) : list string :=
  match manifests with
  | [] => []
  | manifest :: rest =>
      if checkVerdict a context manifest then
        failureReports a context (idx + 1) rest
      else
        failInfo a (index manifest RAW) idx (-1) (Negative context)
        ++ (if FailFast context then [] else failureReports a context (idx + 1) rest)
  end.


End Behaviour.

(** ** Proof steps *)

(** Discharge the hypotheses of a statement at a concrete input, one
    conjunct at a time, and leave its conclusion. *)
Ltac at_input := intros; repeat (split; [done |]).

(** Invert equations between outcomes. *)
Ltac exec_inv := unfold mret, exec_ret in *; simplify_eq.

(** * Properties *)

(** ** The regular-expression model: the matcher decides the language *)

Module GoRegexpFacts.
Import GoRegexp.

#[local] Hint Constructors Matches : core.

Lemma app_eq_cons_cases {A : Type} (x : A) (l l1 l2 : list A) :
  l1 ++ l2 = x :: l →
  (l1 = [] ∧ l2 = x :: l) ∨ (∃ l1', l1 = x :: l1' ∧ l = l1' ++ l2).
Proof.
  destruct l1 as [|y l1]; simpl; intros Heq.
  - by left.
  - right. injection Heq as -> <-. by exists l1.
Qed.

Lemma nullable_Matches (r : regex) : nullable r = true → Matches r [].
Proof.
  induction r; simpl; intros Hn; try discriminate; auto.
  - apply andb_prop in Hn as [? ?]. apply (MConcat _ _ [] []); auto.
  - apply orb_prop in Hn as [?|?]; auto.
  - apply (MPlus _ [] []); auto.
Qed.

Lemma Matches_nullable (r : regex) (l : list rune) :
  Matches r l → l = [] → nullable r = true.
Proof.
  induction 1; simpl; intros Heq; try discriminate; auto.
  - apply app_eq_nil in Heq as [-> ->].
    by rewrite IHMatches1, IHMatches2.
  - by rewrite IHMatches.
  - rewrite IHMatches by done. apply orb_true_r.
  - apply app_eq_nil in Heq as [-> ->]. auto.
Qed.

Lemma nullable_spec (r : regex) : nullable r = true ↔ Matches r [].
Proof. split; [apply nullable_Matches | intros; by eapply Matches_nullable]. Qed.

Lemma derive_sound (x : rune) (r : regex) (l : list rune) :
  Matches (derive x r) l → Matches r (x :: l).
Proof.
  revert l. induction r; simpl; intros l Hm.
  - inversion Hm.
  - inversion Hm.
  - case_bool_decide; inversion Hm; subst. constructor.
  - case_bool_decide; inversion Hm; subst. by constructor.
  - inversion Hm as [| | | | ? ? ? Hl | ? ? ? Hr | | | | |]; subst.
    + inversion Hl; subst. apply (MConcat _ _ (x :: _)); auto.
    + destruct (nullable r1) eqn:Hn; [| inversion Hr].
      apply (MConcat _ _ []); [by apply nullable_Matches | auto].
  - inversion Hm; subst; auto.
  - inversion Hm; subst. apply (MStarApp _ (x :: _)); auto.
  - inversion Hm; subst. apply (MPlus _ (x :: _)); auto.
  - auto.
Qed.

Lemma derive_complete (x : rune) (r : regex) (l0 : list rune) :
  Matches r l0 → ∀ l, l0 = x :: l → Matches (derive x r) l.
Proof.
  induction 1; simpl; intros t Heq; try discriminate.
  - injection Heq as <- <-. rewrite bool_decide_eq_true_2 by done. auto.
  - injection Heq as -> <-. rewrite bool_decide_eq_false_2 by done. auto.
  - apply app_eq_cons_cases in Heq as [[-> ->] | (l1' & -> & ->)].
    + apply MAlternateR.
      rewrite (Matches_nullable r1 []) by done. auto.
    + apply MAlternateL. auto.
  - auto.
  - auto.
  - apply app_eq_cons_cases in Heq as [[-> ->] | (l1' & -> & ->)]; auto.
  - apply app_eq_cons_cases in Heq as [[-> ->] | (l1' & -> & ->)]; auto.
  - auto.
Qed.

Lemma derive_spec (x : rune) (r : regex) (l : list rune) :
  Matches (derive x r) l ↔ Matches r (x :: l).
Proof. split; [apply derive_sound | intros; by eapply derive_complete]. Qed.


Lemma matchPrefix_spec (r : regex) (l : list rune) :
  matchPrefix r l = true ↔ ∃ mid post, l = mid ++ post ∧ Matches r mid.
Proof.
  revert r. induction l as [|x l IH]; simpl; intros r.
  - rewrite orb_false_r, nullable_spec. split.
    + intros Hm. by exists [], [].
    + intros (mid & post & Heq & Hm).
      symmetry in Heq. apply app_eq_nil in Heq as [-> _]. done.
  - rewrite orb_true_iff, nullable_spec, IH. split.
    + intros [Hm | (mid & post & -> & Hm)].
      * by exists [], (x :: l).
      * exists (x :: mid), post. split; [done | by apply derive_spec].
    + intros (mid & post & Heq & Hm).
      symmetry in Heq.
      apply app_eq_cons_cases in Heq as [[-> ->] | (mid' & -> & ->)].
      * by left.
      * right. exists mid', post. split; [done | by apply derive_spec].
Qed.

(** The search finds a match iff some part of the sequence belongs to
    the language. *)
Lemma search_spec (r : regex) (l : list rune) :
  search r l = true ↔ ∃ pre mid post, l = pre ++ mid ++ post ∧ Matches r mid.
Proof.
  induction l as [|x l IH].
  - change (search r []) with (matchPrefix r [] || false).
    rewrite orb_false_r, matchPrefix_spec. split.
    + intros (mid & post & Heq & Hm). by exists [], mid, post.
    + intros (pre & mid & post & Heq & Hm).
      symmetry in Heq. apply app_eq_nil in Heq as [-> Heq].
      by exists mid, post.
  - change (search r (x :: l)) with (matchPrefix r (x :: l) || search r l).
    rewrite orb_true_iff, IH, matchPrefix_spec. split.
    + intros [(mid & post & Heq & Hm) | (pre & mid & post & -> & Hm)].
      * by exists [], mid, post.
      * by exists (x :: pre), mid, post.
    + intros (pre & mid & post & Heq & Hm).
      destruct pre as [|x' pre]; simpl in Heq.
      * left. by exists mid, post.
      * injection Heq as <- ->. right. by exists pre, mid, post.
Qed.

(** A pattern that the parser decides is compiled without the
    remainder. *)
Lemma compile_in_fragment (rest : RegexpPackage) (expr : string) :
  (String.length expr ≤ maxLength)%nat →
  Parse expr ≠ Unsupported →
  compile rest expr
  = match Parse expr with
    | Parsed r => inl (InFragment r)
    | Failed e => inr (errorString (SyntaxError_Error e))
    | Unsupported => compileOutside rest expr
    end
  ∧ compile rest expr = match compile nothingElse expr with
                        | inl (InFragment r) => inl (InFragment r)
                        | inl (Outside q) => match q with end
                        | inr err => inr err
                        end.
Proof.
  intros Hlen Hparse. unfold compile.
  destruct (Nat.ltb_spec maxLength (String.length expr)) as [Hlt|_]; [lia |].
  by destruct (Parse expr).
Qed.

End GoRegexpFacts.

(** ** The validator, for every regular-expression package and every
       rendering of the diagnostics *)

Section ValidatorFacts.
Context {RE : RegexpPackage} {DG : Diagnostics}.

Implicit Types (a : FailedTemplateValidator) (context : ValidateContext).
Implicit Types (manifests : list K8sManifest) (actual : iface).

Lemma validateErrorMessage_nil a manifestIndex actualIndex context :
  validateErrorMessage a INil manifestIndex actualIndex context
  = nilOutcome a manifestIndex actualIndex context.
Proof.
  unfold validateErrorMessage, nilOutcome.
  rewrite decide_False by (intros Hne; by apply Hne).
  simpl. by destruct (Negative context).
Qed.

Lemma validateErrorPattern_nil a manifestIndex actualIndex context p :
  Compile (ErrorPattern a) = inl p →
  validateErrorPattern a INil manifestIndex actualIndex context
  = nilOutcome a manifestIndex actualIndex context.
Proof.
  intros Hp. unfold validateErrorPattern, nilOutcome. rewrite Hp.
  rewrite decide_False by (intros Hne; by apply Hne).
  simpl. by destruct (Negative context).
Qed.

Lemma validateErrorPattern_invalid a actual manifestIndex actualIndex context err :
  Compile (ErrorPattern a) = inr err →
  validateErrorPattern a actual manifestIndex actualIndex context
  = Return (false, splitInfof errorFormat (-1) (-1) [Error err]).
Proof. intros Herr. unfold validateErrorPattern. by rewrite Herr. Qed.

(** One turn of the loop. *)
Lemma validateManifests_loop_cons a context idx manifest rest validateSuccess validateErrors :
  validateManifests_loop a context idx (manifest :: rest) validateSuccess validateErrors
  = if bool_decide (a = zeroValidator) && negb (Negative context) then
      validateManifests_loop a context (idx + 1) rest validateSuccess validateErrors
    else
      '(currentSuccess, validateSingleErrors) ← checkManifest a context idx manifest;
      if negb (determineSuccess idx validateSuccess currentSuccess) && FailFast context then
        mret (determineSuccess idx validateSuccess currentSuccess,
              validateErrors ++ validateSingleErrors)
      else
        validateManifests_loop a context (idx + 1) rest
          (determineSuccess idx validateSuccess currentSuccess)
          (validateErrors ++ validateSingleErrors).
Proof. done. Qed.

(** The zero validator in a context that is not negated: the loop leaves
    both accumulators as they are, whatever the manifests hold. *)
Lemma validateManifests_loop_skip context idx manifests validateSuccess validateErrors :
  Negative context = false →
  validateManifests_loop zeroValidator context idx manifests validateSuccess validateErrors
  = Return (validateSuccess, validateErrors).
Proof.
  intros Hneg. revert idx.
  induction manifests as [|manifest rest IH]; intros idx; [done |].
  rewrite validateManifests_loop_cons, bool_decide_eq_true_2 by done.
  rewrite Hneg. simpl. apply IH.
Qed.

Lemma validateManifests_nil a context :
  validateManifests a [] context = emptyOutcome a context.
Proof.
  unfold validateManifests, emptyOutcome. simpl. by destruct (Negative context).
Qed.

(** C2. A validator with both [errorMessage] and [errorPattern] set fails
    with the configuration-error diagnostic in every context: the result
    mentions neither the manifests, nor the render error, nor the
    negation or fail-fast flags of the context. *)
Theorem Validate_both_parameters a context :
  ErrorMessage a ≠ "" →
  ErrorPattern a ≠ "" →
  Validate a context
  = Return (false, splitInfof errorFormat (-1) (-1)
      ["single attribute 'errorMessage' or 'errorPattern' supported at the same time"]).
Proof.
  intros Hm Hp. unfold Validate.
  by rewrite decide_True by done.
Qed.

(** C5. In a context that carries a render error, a validator with
    neither parameter set succeeds without diagnostics. *)
Theorem Validate_render_error_no_parameter a context renderError :
  RenderError context = Some renderError →
  ErrorMessage a = "" →
  ErrorPattern a = "" →
  Validate a context = Return (true, []).
Proof.
  intros Herr Hm Hp. unfold Validate. rewrite Herr, Hm, Hp.
  rewrite decide_False by (intros [? _]; done).
  by rewrite !decide_False by (intros ?; done).
Qed.

(** C6. When [errorPattern] is not a valid regular expression,
    [validateErrorPattern] returns (it does not panic) a failure whose
    diagnostic is built from the message of the compile error, whatever
    the actual value, the indices and the context. *)
Theorem validateErrorPattern_invalid_pattern
    a actual manifestIndex actualIndex context err :
  Compile (ErrorPattern a) = inr err →
  validateErrorPattern a actual manifestIndex actualIndex context
  = Return (false, splitInfof errorFormat (-1) (-1) [Error err]).
Proof. apply validateErrorPattern_invalid. Qed.

(** C8. The zero validator, in a context that is not negated, without
    render error and with a non-empty manifest collection, skips every
    manifest and succeeds without diagnostics. *)
Theorem Validate_zero_validator_skips a context :
  ErrorMessage a = "" →
  ErrorPattern a = "" →
  Negative context = false →
  RenderError context = None →
  getManifests context ≠ [] →
  validateManifests_loop a context 0 (getManifests context) true [] = Return (true, [])
  ∧ Validate a context = Return (true, []).
Proof.
  intros Hm Hp Hneg Herr Hne.
  assert (a = zeroValidator) as -> by (destruct a; simpl in *; by subst).
  split; [by apply validateManifests_loop_skip |].
  unfold Validate. simpl.
  rewrite Herr. unfold validateManifests.
  rewrite validateManifests_loop_skip by done. simpl.
  destruct (getManifests context); [done |]. simpl. done.
Qed.

(** C10. With a render error in the context, the result of [Validate] is
    a function of the two parameters, the message of the render error and
    the negation flag: contexts that agree on these return the same
    result, however their manifests (and other flags) differ. *)
Theorem Validate_render_error_ignores_manifests a context1 context2 err1 err2 :
  RenderError context1 = Some err1 →
  RenderError context2 = Some err2 →
  Error err1 = Error err2 →
  Negative context1 = Negative context2 →
  Validate a context1 = Validate a context2.
Proof.
  intros H1 H2 Hmsg Hneg. unfold Validate. rewrite H1, H2.
  unfold validateErrorPattern, validateErrorMessage.
  by rewrite Hmsg, Hneg.
Qed.

(** *** One manifest *)

Lemma checkManifest_zero context idx (manifest : K8sManifest) :
  checkManifest zeroValidator context idx manifest = Return (true, []).
Proof. done. Qed.

(** The outcome of a check that returns: a success carries no
    diagnostic; a failure carries the fail diagnostic of the manifest,
    built with its index, or, when the pattern does not compile, the
    compile-error diagnostic, built with index [-1]. *)
Lemma checkManifest_outcome a context idx (manifest : K8sManifest) ok d :
  checkManifest a context idx manifest = Return (ok, d) →
  if ok then d = []
  else d = failInfo a (index manifest RAW) idx (-1) (Negative context)
       ∨ ∃ err, Compile (ErrorPattern a) = inr err
                ∧ d = splitInfof errorFormat (-1) (-1) [Error err].
Proof.
  unfold checkManifest, validateErrorPattern, validateErrorMessage.
  destruct (decide (ErrorPattern a ≠ "")) as [Hp|Hp].
  - destruct (Compile (ErrorPattern a)) as [p|err] eqn:Hc.
    + destruct (Negative context), (index manifest RAW) as [|s| |]; simpl;
        try destruct (MatchString p s); simpl;
        intros ?; exec_inv; auto.
    + simpl. intros ?; exec_inv. right. by exists err.
  - destruct (decide (ErrorMessage a ≠ "")) as [Hm|Hm].
    + destruct (Negative context), (index manifest RAW) as [|s| |]; simpl;
        try destruct (bool_decide (ErrorMessage a = s)); simpl;
        intros ?; exec_inv; auto.
    + intros ?; exec_inv. done.
Qed.

(** A validator with [errorPattern] alone, a pattern that compiles and a
    raw field that is absent or a string: the check returns, and
    succeeds iff the match differs from the negation flag. *)
Lemma checkManifest_pattern a context idx (manifest : K8sManifest) p :
  ErrorPattern a ≠ "" →
  Compile (ErrorPattern a) = inl p →
  rawIsText manifest = true →
  checkManifest a context idx manifest
  = Return (if eqb (rawMatches p manifest) (Negative context)
            then (false, failInfo a (index manifest RAW) idx (-1) (Negative context))
            else (true, [])).
Proof.
  intros Hp Hc Htext. unfold checkManifest, validateErrorPattern.
  rewrite decide_True, Hc by done.
  unfold rawIsText, rawMatches in *.
  destruct (Negative context), (index manifest RAW) as [|s| |];
    try discriminate; simpl; try done; by destruct (MatchString p s).
Qed.

(** *** The loop *)







(** With [errorPattern] alone and a pattern that compiles, over
    manifests whose raw fields are absent or strings, the loop returns
    and its verdict is the conjunction of the per-manifest verdicts. *)
Lemma validateManifests_loop_pattern a context p manifests :
  ErrorPattern a ≠ "" →
  Compile (ErrorPattern a) = inl p →
  forallb rawIsText manifests = true →
  ∀ idx validateSuccess validateErrors,
    ∃ diagnostics,
      validateManifests_loop a context idx manifests validateSuccess validateErrors
      = Return (validateSuccess &&
                forallb (λ m, negb (eqb (rawMatches p m) (Negative context))) manifests,
                diagnostics).
Proof.
  intros Hp Hc. induction manifests as [|manifest rest IH];
    intros Htext idx acc errs.
  - exists errs. simpl. by rewrite andb_true_r.
  - simpl in Htext. apply andb_prop in Htext as [Hm Hrest].
    rewrite validateManifests_loop_cons.
    rewrite bool_decide_eq_false_2 by (intros ->; by apply Hp).
    rewrite (checkManifest_pattern _ _ _ _ p) by done. simpl.
    destruct (eqb (rawMatches p manifest) (Negative context)); simpl.
    + unfold determineSuccess. rewrite andb_false_r. simpl.
      destruct (FailFast context); [by eexists |].
      destruct (IH Hrest (idx + 1) false (errs ++
        failInfo a (index manifest RAW) idx (-1) (Negative context))) as [ds ->].
      by exists ds.
    + unfold determineSuccess. rewrite andb_true_r.
      destruct (IH Hrest (idx + 1) acc (errs ++ [])) as [ds Hds].
      destruct acc; simpl; [by exists ds |].
      destruct (FailFast context); [by eexists | by exists ds].
Qed.

Lemma forallb_negb_existsb {A : Type} (f : A → bool) (l : list A) :
  forallb (λ x, negb (f x)) l = negb (existsb f l).
Proof. induction l as [|x l IH]; simpl; [done |]. rewrite IH. by destruct (f x). Qed.

Lemma forallb_pointwise {A : Type} (f g : A → bool) (l : list A) :
  (∀ x, f x = g x) → forallb f l = forallb g l.
Proof. intros Hfg. induction l as [|x l IH]; simpl; [done |]. by rewrite Hfg, IH. Qed.

(** *** The claims about the iteration *)

(** C1, as amended. For a validator with [errorPattern] alone, a pattern
    that compiles, no render error and manifests whose raw fields are
    absent or strings, [Validate] returns, and the assertion passes iff
    either the context is negated and no manifest matches, or the
    context is not negated, the collection is not empty and every
    manifest matches. *)
Theorem Validate_pattern_over_manifests a context p :
  ErrorMessage a = "" →
  ErrorPattern a ≠ "" →
  Compile (ErrorPattern a) = inl p →
  RenderError context = None →
  forallb rawIsText (getManifests context) = true →
  ∃ diagnostics,
    Validate a context
    = Return (if Negative context
              then negb (anyManifestMatches p (getManifests context))
              else negb (bool_decide (getManifests context = []))
                   && allManifestsMatch p (getManifests context),
              diagnostics).
Proof.
  intros Hm Hp Hc Herr Htext. unfold Validate.
  rewrite decide_False by (intros [? _]; done). rewrite Herr.
  unfold validateManifests.
  destruct (validateManifests_loop_pattern a context p (getManifests context)
              Hp Hc Htext 0 true []) as [ds ->].
  simpl. unfold anyManifestMatches, allManifestsMatch.
  destruct (Negative context) eqn:Hneg.
  - rewrite andb_false_r. simpl. exists ds. do 2 f_equal.
    rewrite <- forallb_negb_existsb. apply forallb_pointwise.
    intros m. by destruct (rawMatches p m).
  - destruct (getManifests context) as [|m ms] eqn:Hms; simpl.
    + by eexists.
    + exists ds. do 2 f_equal. f_equal; [by destruct (rawMatches p m) |].
      apply forallb_pointwise. intros m'. by destruct (rawMatches p m').
Qed.

(** C4, as amended. On an empty manifest collection [validateManifests]
    fails with the diagnostic built around "No failed document" when the
    context is not negated, and succeeds without diagnostics when it is;
    so does [Validate] on a context without render error, for every
    validator that does not set both parameters. *)
Theorem Validate_empty_collection a context :
  validateManifests a [] context = emptyOutcome a context
  ∧ (¬ (ErrorMessage a ≠ "" ∧ ErrorPattern a ≠ "") →
     RenderError context = None →
     getManifests context = [] →
     Validate a context = emptyOutcome a context).
Proof.
  split; [apply validateManifests_nil |].
  intros Hnot Herr Hempty. unfold Validate.
  rewrite decide_False, Herr, Hempty, validateManifests_nil by done.
  unfold emptyOutcome. by destruct (Negative context).
Qed.


(** C9, as amended. With a nil actual value neither comparison reaches
    the type assertion (which would panic on nil): both return.
    [validateErrorMessage] fails with a diagnostic when the context is
    not negated and succeeds when it is; so does [validateErrorPattern]
    when the pattern compiles, and otherwise it fails with the
    compile-error diagnostic whatever the negation. *)
Theorem nil_actual_is_not_asserted a manifestIndex actualIndex context :
  assertString INil = Panic
  ∧ validateErrorMessage a INil manifestIndex actualIndex context
    = nilOutcome a manifestIndex actualIndex context
  ∧ validateErrorPattern a INil manifestIndex actualIndex context
    = match Compile (ErrorPattern a) with
      | inl _ => nilOutcome a manifestIndex actualIndex context
      | inr err => Return (false, splitInfof errorFormat (-1) (-1) [Error err])
      end.
Proof.
  split; [done |]. split; [apply validateErrorMessage_nil |].
  destruct (Compile (ErrorPattern a)) as [p|err] eqn:Hc.
  - by eapply validateErrorPattern_nil.
  - by apply validateErrorPattern_invalid.
Qed.

End ValidatorFacts.

(** ** The validator and the contract of [MatchString] *)

Section MatchStringContract.
Context {RE : RegexpPackage} {RC : RegexpContract RE} {DG : Diagnostics}.


End MatchStringContract.

(** The model keeps the contract, whenever the remainder does. *)

Lemma withRemainder_contains (rest : RegexpPackage) (RC : RegexpContract rest)
    (p : GoRegexp.compiled rest) (s : string) :
  GoRegexp.matchString rest p s = true ↔ ∃ i j, GoRegexp.matchesAt rest RC p s i j.
Proof.
  destruct p as [r|q]; simpl.
  - rewrite GoRegexpFacts.search_spec. split.
    + intros (pre & mid & post & Heq & Hm).
      by exists (length pre), (length (pre ++ mid)), pre, mid, post.
    + intros (i & j & pre & mid & post & Heq & _ & _ & Hm). by exists pre, mid, post.
  - apply MatchString_contains.
Qed.

#[export] Instance withRemainder_contract (rest : RegexpPackage)
    (RC : RegexpContract rest) : RegexpContract (GoRegexp.withRemainder rest) :=
  Build_RegexpContract (GoRegexp.withRemainder rest)
    (GoRegexp.matchesAt rest RC) (withRemainder_contains rest RC).

Lemma nothingElse_contains (q : @Regexp GoRegexp.nothingElse) (s : string) :
  @MatchString GoRegexp.nothingElse q s = true
  ↔ ∃ i j : nat, match q return Prop with end.
Proof. destruct q. Qed.

#[export] Instance nothingElse_contract : RegexpContract GoRegexp.nothingElse :=
  Build_RegexpContract GoRegexp.nothingElse
    (fun q _ _ _ => match q return Prop with end) nothingElse_contains.

#[export] Instance package_contract : RegexpContract GoRegexp.package :=
  withRemainder_contract GoRegexp.nothingElse nothingElse_contract.

(** ** The claims at concrete inputs *)

Section Instances.
Import GoRegexp Rendering Samples.

(** The example of the spec for exact comparison: the message of the
    render error carries a prefix, so [errorMessage] does not equal it. *)
Example render_error_message_with_prefix :
  ∃ diagnostics,
    Validate (withMessage "bad indentation")
      (context [] false false (Some (errorString "template: bad indentation")))
    = Return (false, diagnostics).
Proof. by eexists. Qed.

(** C1, counterexample. One manifest matches and one does not, in a
    context that is not negated: [negative == !anyManifestMatches] holds,
    and yet the assertion does not pass. *)
Lemma pattern_over_mixed_manifests_fails :
  let a := withPattern "a" in
  let c := context [document "a"; document "b"] false false None in
  ∃ p diagnostics,
    Compile (ErrorPattern a) = inl p
    ∧ ErrorMessage a = ""
    ∧ RenderError c = None
    ∧ eqb (Negative c) (negb (anyManifestMatches p (getManifests c))) = true
    ∧ Validate a c = Return (false, diagnostics).
Proof. simpl. eexists _, _. repeat split; vm_compute; reflexivity. Qed.

Lemma Validate_pattern_over_manifests_witness :
  let a := withPattern "a" in
  let c := context [document "a"; document "b"] false false None in
  let p : @Regexp package := InFragment (Literal "a") in
  ErrorMessage a = ""
  ∧ ErrorPattern a ≠ ""
  ∧ Compile (ErrorPattern a) = inl p
  ∧ RenderError c = None
  ∧ forallb rawIsText (getManifests c) = true
  ∧ ∃ diagnostics, Validate a c = Return (false, diagnostics).
Proof.
  at_input.
  apply (Validate_pattern_over_manifests (RE := package) a c p); done.
Defined.

Lemma Validate_both_parameters_witness :
  let c := context [document "a"] true false (Some (errorString "no such file")) in
  ErrorMessage withBoth ≠ ""
  ∧ ErrorPattern withBoth ≠ ""
  ∧ Validate withBoth c
    = Return (false, splitInfof errorFormat (-1) (-1)
        ["single attribute 'errorMessage' or 'errorPattern' supported at the same time"]).
Proof.
  at_input.
  apply (Validate_both_parameters (RE := package) withBoth c); done.
Defined.



(** C4, counterexample. Both parameters set, no render error, no
    manifest, negated context: the configuration error makes the assertion
    fail where the claim promises success. *)
Lemma both_parameters_fail_on_empty_collection :
  let c := context [] true false None in
  RenderError c = None
  ∧ getManifests c = []
  ∧ Negative c = true
  ∧ Validate withBoth c
    = Return (false, splitInfof errorFormat (-1) (-1)
        ["single attribute 'errorMessage' or 'errorPattern' supported at the same time"])
  ∧ Validate withBoth c ≠ Return (true, []).
Proof. simpl. repeat split; done. Qed.

Lemma Validate_empty_collection_witness :
  let a := withPattern "a" in
  let c := context [] false false None in
  ¬ (ErrorMessage a ≠ "" ∧ ErrorPattern a ≠ "")
  ∧ RenderError c = None
  ∧ getManifests c = []
  ∧ Validate a c
    = Return (false, failInfo a (IString "No failed document") (-1) (-1) false).
Proof.
  intros a c. split; [by intros [? _] |]. at_input.
  apply (proj2 (Validate_empty_collection (RE := package) a c));
    [by intros [? _] | done | done].
Defined.

Lemma Validate_render_error_no_parameter_witness :
  let renderError := errorString "template: bad indentation" in
  let c := context [document "a"] false false (Some renderError) in
  RenderError c = Some renderError
  ∧ ErrorMessage zeroValidator = ""
  ∧ ErrorPattern zeroValidator = ""
  ∧ Validate zeroValidator c = Return (true, []).
Proof.
  at_input.
  apply (Validate_render_error_no_parameter (RE := package) zeroValidator c renderError); done.
Defined.

Lemma validateErrorPattern_invalid_pattern_witness :
  let a := withPattern "a(b" in
  let c := context [] true false None in
  let err := errorString "error parsing regexp: missing closing ): `a(b`" in
  Compile (ErrorPattern a) = inr err
  ∧ validateErrorPattern a (IInt 7) 3 (-1) c
    = Return (false, splitInfof errorFormat (-1) (-1) [Error err]).
Proof.
  at_input.
  apply (validateErrorPattern_invalid_pattern (RE := package) a (IInt 7) 3 (-1) c err); done.
Defined.


Lemma Validate_zero_validator_skips_witness :
  let c := context [document "a"; numbered 3] false false None in
  ErrorMessage zeroValidator = ""
  ∧ ErrorPattern zeroValidator = ""
  ∧ Negative c = false
  ∧ RenderError c = None
  ∧ getManifests c ≠ []
  ∧ Validate zeroValidator c = Return (true, []).
Proof.
  at_input.
  apply (Validate_zero_validator_skips (RE := package) zeroValidator c); done.
Defined.

(** C9, counterexample. With a pattern that does not compile, a nil
    actual value and a negated context, [validateErrorPattern] fails
    where the claim promises success. *)
Lemma nil_actual_with_invalid_pattern_fails :
  let a := withPattern "(" in
  let c := context [] true false None in
  Negative c = true
  ∧ validateErrorPattern a INil 0 (-1) c
    = Return (false, splitInfof errorFormat (-1) (-1)
        ["error parsing regexp: missing closing ): `(`"])
  ∧ validateErrorPattern a INil 0 (-1) c ≠ Return (true, []).
Proof. simpl. repeat split; done. Qed.

Lemma Validate_render_error_ignores_manifests_witness :
  let a := withPattern "bad.*" in
  let err := errorString "template: bad indentation" in
  let c1 := context [] false false (Some err) in
  let c2 := context [document "a"; numbered 3] false true (Some err) in
  RenderError c1 = Some err
  ∧ RenderError c2 = Some err
  ∧ Error err = Error err
  ∧ Negative c1 = Negative c2
  ∧ Validate a c1 = Validate a c2.
Proof.
  at_input.
  apply (Validate_render_error_ignores_manifests (RE := package) a c1 c2 err err); done.
Defined.

End Instances.

(** ** Further behaviour of the validator *)

Section ValidatorBehaviour.
Context {RE : RegexpPackage} {DG : Diagnostics}.

Implicit Types (a : FailedTemplateValidator) (context : ValidateContext).
Implicit Types (manifests : list K8sManifest) (manifest : K8sManifest).

(** *** One manifest *)

(** A check reads the negation flag of the context and nothing else. *)
Lemma checkManifest_context a context context' idx manifest :
  Negative context' = Negative context →
  checkManifest a context' idx manifest = checkManifest a context idx manifest.
Proof.
  intros Hneg. unfold checkManifest, validateErrorPattern, validateErrorMessage.
  by rewrite Hneg.
Qed.

Lemma checkManifest_text_returns a context idx manifest :
  rawIsText manifest = true →
  ∃ r, checkManifest a context idx manifest = Return r.
Proof.
  unfold rawIsText, checkManifest, validateErrorPattern, validateErrorMessage.
  destruct (decide (ErrorPattern a ≠ "")); [destruct (Compile (ErrorPattern a)) |
    destruct (decide (ErrorMessage a ≠ ""))];
    destruct (Negative context), (index manifest RAW) as [|s| |];
    try discriminate; simpl; intros _;
    try destruct (MatchString _ s); try destruct (bool_decide (_ = s));
    by eexists.
Qed.

(** The index of a manifest shows in the diagnostic, not in the verdict. *)
Lemma checkManifest_verdict_index a context idx idx' manifest ok d :
  checkManifest a context idx manifest = Return (ok, d) →
  ∃ d', checkManifest a context idx' manifest = Return (ok, d').
Proof.
  unfold checkManifest, validateErrorPattern, validateErrorMessage.
  destruct (decide (ErrorPattern a ≠ "")); [destruct (Compile (ErrorPattern a)) |
    destruct (decide (ErrorMessage a ≠ ""))];
    destruct (Negative context), (index manifest RAW) as [|s| |]; simpl;
    try destruct (MatchString _ s); try destruct (bool_decide (_ = s)); simpl;
    intros ?; exec_inv; by eexists.
Qed.

Lemma checkManifest_checkVerdict a context idx manifest :
  rawIsText manifest = true →
  ∃ d, checkManifest a context idx manifest = Return (checkVerdict a context manifest, d).
Proof.
  intros Htext. unfold checkVerdict.
  destruct (checkManifest_text_returns a context 0 manifest Htext) as [[ok d0] H0].
  rewrite H0. by eapply checkManifest_verdict_index.
Qed.

(** *** The loop *)

(** The loop only appends to the diagnostics and never turns a failure
    into a success. *)
Lemma validateManifests_loop_extends a context manifests :
  ∀ idx acc errs b d,
    validateManifests_loop a context idx manifests acc errs = Return (b, d) →
    errs `prefix_of` d ∧ (b = true → acc = true).
Proof.
  induction manifests as [|manifest rest IH]; intros idx acc errs b d.
  - simpl. intros ?; exec_inv. done.
  - rewrite validateManifests_loop_cons.
    destruct (bool_decide (a = zeroValidator) && negb (Negative context)); [apply IH |].
    destruct (checkManifest a context idx manifest) as [[ok ds]|]; [| done]. simpl.
    destruct (negb (determineSuccess idx acc ok) && FailFast context) eqn:Hbreak.
    + intros ?; exec_inv. split; [by apply prefix_app_r |].
      intros Hb. apply andb_prop in Hbreak as [Hf _]. by rewrite Hb in Hf.
    + intros Hloop. apply IH in Hloop as [Hpre Hacc]. split.
      * etrans; [| done]. by apply prefix_app_r.
      * intros Hb. specialize (Hacc Hb). unfold determineSuccess in Hacc.
        by apply andb_prop in Hacc as [? _].
Qed.

(** A loop that ends in success has emitted nothing. *)
Lemma validateManifests_loop_success a context manifests :
  ∀ idx acc errs d,
    validateManifests_loop a context idx manifests acc errs = Return (true, d) →
    d = errs.
Proof.
  induction manifests as [|manifest rest IH]; intros idx acc errs d.
  - simpl. intros ?; exec_inv. done.
  - rewrite validateManifests_loop_cons.
    destruct (bool_decide (a = zeroValidator) && negb (Negative context)); [apply IH |].
    destruct (checkManifest a context idx manifest) as [[ok ds]|] eqn:Hcheck; [| done].
    simpl. destruct (negb (determineSuccess idx acc ok) && FailFast context) eqn:Hbreak.
    + intros ?; exec_inv. apply andb_prop in Hbreak as [Hf _].
      by replace (determineSuccess idx acc ok) with true in Hf.
    + intros Hloop.
      destruct (validateManifests_loop_extends _ _ _ _ _ _ _ _ Hloop) as [_ Hacc].
      specialize (Hacc eq_refl). unfold determineSuccess in Hacc.
      apply andb_prop in Hacc as [_ ->].
      apply (checkManifest_outcome _ _ _ _ true) in Hcheck. subst ds.
      apply IH in Hloop. by rewrite app_nil_r in Hloop.
Qed.

(** Over manifests whose raw fields are absent or strings the loop
    returns, with the conjunction of the verdicts of the checks. *)
Lemma validateManifests_loop_verdict a context manifests :
  forallb rawIsText manifests = true →
  ∀ idx acc errs,
    ∃ d, validateManifests_loop a context idx manifests acc errs
         = Return (acc && forallb (checkVerdict a context) manifests, d).
Proof.
  induction manifests as [|manifest rest IH]; intros Htext idx acc errs.
  - exists errs. simpl. by rewrite andb_true_r.
  - simpl in Htext. apply andb_prop in Htext as [Hm Hrest].
    rewrite validateManifests_loop_cons.
    destruct (bool_decide (a = zeroValidator) && negb (Negative context)) eqn:Hskip.
    + apply andb_prop in Hskip as [Hz _]. apply bool_decide_eq_true in Hz. subst a.
      destruct (IH Hrest (idx + 1) acc errs) as [d ->]. by exists d.
    + destruct (checkManifest_checkVerdict a context idx manifest Hm) as [ds ->].
      simpl. unfold determineSuccess.
      destruct (negb (acc && checkVerdict a context manifest) && FailFast context) eqn:Hbreak.
      * eexists. do 2 f_equal. apply andb_prop in Hbreak as [Hf _].
        apply negb_true_iff in Hf. by rewrite andb_assoc, Hf.
      * destruct (IH Hrest (idx + 1) (acc && checkVerdict a context manifest)
                    (errs ++ ds)) as [d ->].
        exists d. by rewrite andb_assoc.
Qed.

Lemma forallb_pointwise_on {A : Type} (P f g : A → bool) (l : list A) :
  forallb P l = true →
  (∀ x, P x = true → f x = g x) →
  forallb f l = forallb g l.
Proof.
  intros HP Hfg. induction l as [|x l IH]; simpl in *; [done |].
  apply andb_prop in HP as [Hx Hl]. by rewrite (Hfg x Hx), IH.
Qed.

(** *** The whole assertion *)

(** Without render error and without the configuration error, over
    manifests whose raw fields are absent or strings: the assertion
    returns, and passes iff every check passes and the collection is not
    both empty and met in a context that is not negated. *)
Lemma Validate_verdict_text a context :
  ¬ (ErrorMessage a ≠ "" ∧ ErrorPattern a ≠ "") →
  RenderError context = None →
  forallb rawIsText (getManifests context) = true →
  ∃ d, Validate a context
       = Return (forallb (checkVerdict a context) (getManifests context)
                 && negb (bool_decide (getManifests context = [])
                          && negb (Negative context)), d).
Proof.
  intros Hnot Herr Htext. unfold Validate, validateManifests.
  rewrite decide_False, Herr by done.
  destruct (validateManifests_loop_verdict a context _ Htext 0 true []) as [d ->].
  simpl. destruct (getManifests context) as [|m ms]; simpl.
  - destruct (Negative context); by eexists.
  - rewrite andb_true_r. by eexists.
Qed.

(** X1. A passing assertion carries no diagnostics, on every path. *)
Theorem Validate_success_has_no_diagnostics a context d :
  Validate a context = Return (true, d) → d = [].
Proof.
  unfold Validate.
  destruct (decide (ErrorMessage a ≠ "" ∧ ErrorPattern a ≠ "")); [intros ?; exec_inv |].
  destruct (RenderError context) as [renderError|].
  - unfold validateErrorPattern, validateErrorMessage.
    destruct (decide (ErrorPattern a ≠ "")); [destruct (Compile (ErrorPattern a)) |
      destruct (decide (ErrorMessage a ≠ ""))]; simpl;
      try destruct (eqb _ (Negative context)); intros ?; by exec_inv.
  - unfold validateManifests.
    destruct (validateManifests_loop a context 0 (getManifests context) true [])
      as [[b ds]|] eqn:Hloop; [| done].
    simpl. destruct (bool_decide _ && negb _); simpl; intros ?; exec_inv.
    by apply validateManifests_loop_success in Hloop.
Qed.

(** X2. The assertion returns (the type assertion does not panic)
    whenever the context carries a render error, and whenever every
    manifest has a raw field that is absent or a string: whatever the
    parameters, also with a pattern that does not compile. *)
Theorem Validate_returns a context :
  is_Some (RenderError context) ∨ forallb rawIsText (getManifests context) = true →
  ∃ r, Validate a context = Return r.
Proof.
  intros Hsafe.
  destruct (decide (ErrorMessage a ≠ "" ∧ ErrorPattern a ≠ "")) as [Hboth|Hnot].
  { unfold Validate. rewrite decide_True by done. by eexists. }
  destruct (RenderError context) as [renderError|] eqn:Herr.
  - unfold Validate. rewrite decide_False, Herr by done.
    unfold validateErrorPattern, validateErrorMessage.
    destruct (decide (ErrorPattern a ≠ "")); [destruct (Compile (ErrorPattern a)) |
      destruct (decide (ErrorMessage a ≠ ""))]; simpl;
      try destruct (eqb _ (Negative context)); by eexists.
  - destruct Hsafe as [[? ?]|Htext]; [done |].
    destruct (Validate_verdict_text a context Hnot Herr Htext) as [d ->]. by eexists.
Qed.

Lemma checkVerdict_message a context manifest :
  ErrorPattern a = "" →
  ErrorMessage a ≠ "" →
  rawIsText manifest = true →
  checkVerdict a context manifest
  = negb (eqb (rawEquals (ErrorMessage a) manifest) (Negative context)).
Proof.
  intros Hp Hm. unfold checkVerdict, checkManifest, validateErrorMessage, rawIsText, rawEquals.
  rewrite Hp, decide_False, decide_True by first [done | by intros Hne; apply Hne].
  destruct (Negative context), (index manifest RAW) as [|s| |];
    try discriminate; simpl; try done;
    by destruct (bool_decide (ErrorMessage a = s)).
Qed.

(** X3. For a validator with [errorMessage] alone, without render error
    and over manifests whose raw fields are absent or strings, the
    assertion returns, and passes iff either the context is negated and no
    raw field equals the message, or the context is not negated, the
    collection is not empty and every raw field equals the message. *)
Theorem Validate_message_over_manifests a context :
  ErrorPattern a = "" →
  ErrorMessage a ≠ "" →
  RenderError context = None →
  forallb rawIsText (getManifests context) = true →
  ∃ d, Validate a context
       = Return (if Negative context
                 then negb (anyManifestEquals (ErrorMessage a) (getManifests context))
                 else negb (bool_decide (getManifests context = []))
                      && allManifestsEqual (ErrorMessage a) (getManifests context), d).
Proof.
  intros Hp Hm Herr Htext.
  destruct (Validate_verdict_text a context) as [d ->];
    [by intros [_ ?] | done | done |].
  exists d. do 2 f_equal.
  rewrite (forallb_pointwise_on rawIsText _
             (λ m, negb (eqb (rawEquals (ErrorMessage a) m) (Negative context))) _ Htext)
    by (intros m Hmt; by apply checkVerdict_message).
  unfold anyManifestEquals, allManifestsEqual.
  destruct (Negative context); simpl.
  - rewrite andb_false_r, andb_true_r, <- forallb_negb_existsb.
    apply forallb_pointwise. intros m. by destruct (rawEquals _ m).
  - rewrite andb_true_r, andb_comm. f_equal.
    apply forallb_pointwise. intros m. by destruct (rawEquals _ m).
Qed.

(** X4. With a render error and [errorMessage] alone, the comparison is
    exact equality with the message of the error: the assertion passes
    iff "the two strings are equal" differs from the negation flag, and a
    failure carries the fail diagnostic built with index [-1]. *)
Theorem Validate_render_error_message a context renderError :
  ErrorPattern a = "" →
  ErrorMessage a ≠ "" →
  RenderError context = Some renderError →
  Validate a context
  = if eqb (bool_decide (ErrorMessage a = Error renderError)) (Negative context)
    then Return (false, failInfo a (IString (Error renderError)) (-1) (-1)
                          (Negative context))
    else Return (true, []).
Proof.
  intros Hp Hm Herr. unfold Validate, validateErrorMessage.
  rewrite decide_False by (intros [_ ?]; done).
  rewrite Herr, Hp, decide_False, decide_True by first [done | by intros Hne; apply Hne]. simpl.
  by destruct (eqb _ (Negative context)).
Qed.

(** X5. With a render error and a comparison to make (one parameter, a
    pattern that compiles), negating the context inverts the verdict; the
    manifests and the fail-fast flag play no part. *)
Theorem Validate_render_error_negation a context context' renderError :
  compares a →
  RenderError context = Some renderError →
  RenderError context' = Some renderError →
  Negative context' = negb (Negative context) →
  ∃ b d d',
    Validate a context = Return (b, d) ∧ Validate a context' = Return (negb b, d').
Proof.
  intros Hcmp Herr Herr' Hneg. unfold Validate.
  rewrite Herr, Herr'.
  destruct (decide (ErrorMessage a ≠ "" ∧ ErrorPattern a ≠ "")) as [[Hm Hp]|_].
  { by destruct Hcmp as [(Hm' & _) | (Hp' & _)]. }
  destruct Hcmp as [(Hm & Hp & p & Hc) | (Hp & Hm)].
  - destruct (decide (ErrorPattern a ≠ "")); [| done].
    unfold validateErrorPattern. rewrite Hc, Hneg. simpl.
    destruct (MatchString p (Error renderError)), (Negative context); simpl;
      by eexists _, _, _.
  - destruct (decide (ErrorPattern a ≠ "")); [done |].
    destruct (decide (ErrorMessage a ≠ "")); [| done].
    unfold validateErrorMessage. rewrite Hneg. simpl.
    destruct (bool_decide (ErrorMessage a = Error renderError)), (Negative context);
      simpl; by eexists _, _, _.
Qed.

(** *** Panics *)

Lemma compares_not_zero a : compares a → a ≠ zeroValidator.
Proof. intros [(_ & Hp & _) | (_ & Hm)] ->; done. Qed.

Lemma checkManifest_panics a context idx manifest :
  compares a →
  rawIsText manifest = false →
  checkManifest a context idx manifest = Panic.
Proof.
  intros Hcmp. unfold rawIsText, checkManifest.
  destruct Hcmp as [(Hm & Hp & p & Hc) | (Hp & Hm)].
  - destruct (decide (ErrorPattern a ≠ "")); [| done].
    unfold validateErrorPattern. rewrite Hc.
    by destruct (index manifest RAW).
  - destruct (decide (ErrorPattern a ≠ "")); [done |].
    destruct (decide (ErrorMessage a ≠ "")); [| done].
    unfold validateErrorMessage. by destruct (index manifest RAW).
Qed.

Lemma validateManifests_loop_panics a context manifests :
  compares a →
  FailFast context = false →
  forallb rawIsText manifests = false →
  ∀ idx acc errs, validateManifests_loop a context idx manifests acc errs = Panic.
Proof.
  intros Hcmp Hff. induction manifests as [|manifest rest IH]; intros Htext idx acc errs;
    [done |].
  rewrite validateManifests_loop_cons.
  rewrite bool_decide_eq_false_2 by (by apply compares_not_zero). simpl.
  destruct (rawIsText manifest) eqn:Hm.
  - destruct (checkManifest_text_returns a context idx manifest Hm) as [[ok ds] ->].
    simpl. rewrite Hff, andb_false_r. apply IH.
    simpl in Htext. by rewrite Hm in Htext.
  - by rewrite checkManifest_panics.
Qed.

(** X6. When the validator has a comparison to make (exactly one
    parameter, a pattern that compiles), there is no render error and
    fail-fast is off, one manifest whose raw field is neither absent nor
    a string makes the whole assertion panic, wherever it stands in the
    collection and whatever the negation. *)
Theorem Validate_panics_on_other_raw a context :
  compares a →
  RenderError context = None →
  FailFast context = false →
  forallb rawIsText (getManifests context) = false →
  Validate a context = Panic.
Proof.
  intros Hcmp Herr Hff Htext. unfold Validate.
  destruct (decide (ErrorMessage a ≠ "" ∧ ErrorPattern a ≠ "")) as [[Hm Hp]|_].
  { by destruct Hcmp as [(Hm' & _) | (Hp' & _)]. }
  rewrite Herr. unfold validateManifests.
  by rewrite validateManifests_loop_panics.
Qed.

(** *** Fail-fast *)

Lemma validateManifests_loop_fail_fast_prefix a context context' manifests :
  Negative context' = Negative context →
  FailFast context = false →
  FailFast context' = true →
  ∀ idx acc errs b d,
    validateManifests_loop a context idx manifests acc errs = Return (b, d) →
    ∃ d', validateManifests_loop a context' idx manifests acc errs = Return (b, d')
          ∧ d' `prefix_of` d.
Proof.
  intros Hneg Hff Hff'.
  induction manifests as [|manifest rest IH]; intros idx acc errs b d.
  - simpl. intros ?; exec_inv. by eexists.
  - rewrite !validateManifests_loop_cons, Hneg, Hff, Hff'.
    destruct (bool_decide (a = zeroValidator) && negb (Negative context)); [apply IH |].
    rewrite (checkManifest_context a context context') by done.
    destruct (checkManifest a context idx manifest) as [[ok ds]|]; [| done]. simpl.
    rewrite andb_false_r, andb_true_r. intros Hloop.
    destruct (determineSuccess idx acc ok) eqn:Hacc; simpl.
    + by apply IH.
    + destruct (validateManifests_loop_extends _ _ _ _ _ _ _ _ Hloop) as [Hpre Hb].
      destruct b; [by specialize (Hb eq_refl) |]. by eexists.
Qed.

(** X7. Fail-fast changes no verdict: an assertion that returns without
    fail-fast returns the same verdict under fail-fast, with a prefix of
    the diagnostics. *)
Theorem Validate_fail_fast_keeps_verdict a context context' b d :
  Negative context' = Negative context →
  RenderError context' = RenderError context →
  getManifests context' = getManifests context →
  FailFast context = false →
  FailFast context' = true →
  Validate a context = Return (b, d) →
  ∃ d', Validate a context' = Return (b, d') ∧ d' `prefix_of` d.
Proof.
  intros Hneg Herr Hms Hff Hff'. unfold Validate. rewrite Herr, Hms.
  destruct (decide (ErrorMessage a ≠ "" ∧ ErrorPattern a ≠ "")); [by eexists |].
  destruct (RenderError context) as [renderError|].
  - unfold validateErrorPattern, validateErrorMessage. rewrite Hneg. by eexists.
  - unfold validateManifests. rewrite Hneg.
    destruct (getManifests context) as [|manifest rest]; [by eexists |].
    destruct (validateManifests_loop a context 0 (manifest :: rest) true [])
      as [[b0 d0]|] eqn:Hloop; [| done].
    destruct (validateManifests_loop_fail_fast_prefix a context context' _
                Hneg Hff Hff' _ _ _ _ _ Hloop) as (d' & -> & Hpre).
    simpl. intros ?; exec_inv. by exists d'.
Qed.

(** *** The validator without parameters *)

Lemma validateManifests_loop_zero context manifests :
  ∀ idx errs,
    validateManifests_loop zeroValidator context idx manifests true errs
    = Return (true, errs).
Proof.
  induction manifests as [|manifest rest IH]; intros idx errs; [done |].
  rewrite validateManifests_loop_cons, checkManifest_zero.
  destruct (bool_decide _ && negb _); simpl; [apply IH |].
  by rewrite app_nil_r, IH.
Qed.

(** X8. The validator without parameters returns in every context and
    fails in one case only: no render error, no manifest and no negation.
    Negation never makes it fail, and it never looks at a raw field. *)
Theorem zero_validator_verdict context :
  Validate zeroValidator context
  = match RenderError context with
    | Some _ => Return (true, [])
    | None =>
        if bool_decide (getManifests context = []) && negb (Negative context)
        then Return (false, failInfo zeroValidator (IString "No failed document")
                              (-1) (-1) false)
        else Return (true, [])
    end.
Proof.
  unfold Validate. simpl. destruct (RenderError context); [done |].
  unfold validateManifests. rewrite validateManifests_loop_zero. simpl.
  destruct (getManifests context); simpl; [| done].
  by destruct (Negative context).
Qed.

(** *** A pattern that does not compile *)

Lemma checkManifest_invalid a context idx manifest err :
  ErrorPattern a ≠ "" →
  Compile (ErrorPattern a) = inr err →
  checkManifest a context idx manifest
  = Return (false, splitInfof errorFormat (-1) (-1) [Error err]).
Proof.
  intros Hp Hc. unfold checkManifest. rewrite decide_True by done.
  by apply validateErrorPattern_invalid.
Qed.

Lemma validateManifests_loop_invalid a context manifests err :
  ErrorPattern a ≠ "" →
  Compile (ErrorPattern a) = inr err →
  FailFast context = false →
  ∀ idx acc errs,
    validateManifests_loop a context idx manifests acc errs
    = Return (acc && bool_decide (manifests = []),
              errs ++ concat (replicate (length manifests)
                                (splitInfof errorFormat (-1) (-1) [Error err]))).
Proof.
  intros Hp Hc Hff. induction manifests as [|manifest rest IH]; intros idx acc errs.
  - simpl. by rewrite andb_true_r, app_nil_r.
  - rewrite validateManifests_loop_cons.
    rewrite bool_decide_eq_false_2 by (intros ->; by apply Hp).
    rewrite (checkManifest_invalid _ _ _ _ err) by done. simpl.
    rewrite Hff, andb_false_r, IH. unfold determineSuccess.
    by rewrite !andb_false_r, app_assoc.
Qed.

(** X9. With [errorPattern] alone set to a pattern that does not
    compile, and no render error: over a non-empty collection the
    assertion fails without ever panicking, with the compile-error
    diagnostic once per manifest, or once in all under fail-fast; over an
    empty collection the pattern is not compiled at all and the
    assertion answers as for any other validator (it passes when
    negated). *)
Theorem Validate_invalid_pattern_over_manifests a context err :
  ErrorMessage a = "" →
  ErrorPattern a ≠ "" →
  Compile (ErrorPattern a) = inr err →
  RenderError context = None →
  Validate a context
  = match getManifests context with
    | [] => emptyOutcome a context
    | _ :: _ =>
        Return (false,
                concat (replicate (if FailFast context then 1%nat
                                   else length (getManifests context))
                          (splitInfof errorFormat (-1) (-1) [Error err])))
    end.
Proof.
  intros Hm Hp Hc Herr. unfold Validate.
  rewrite decide_False by (intros [? _]; done). rewrite Herr.
  destruct (getManifests context) as [|manifest rest] eqn:Hms.
  { rewrite validateManifests_nil. unfold emptyOutcome.
    by destruct (Negative context). }
  unfold validateManifests.
  destruct (FailFast context) eqn:Hff.
  - rewrite validateManifests_loop_cons.
    rewrite (bool_decide_eq_false_2 (a = zeroValidator)) by (intros ->; by apply Hp).
    rewrite (checkManifest_invalid _ _ _ _ err) by done. simpl.
    rewrite Hff. simpl. by rewrite app_nil_r.
  - by rewrite (validateManifests_loop_invalid _ _ _ err).
Qed.

(** *** The order and the number of the manifests *)

Lemma forallb_Permutation {A : Type} (f : A → bool) (l l' : list A) :
  l ≡ₚ l' → forallb f l = forallb f l'.
Proof.
  induction 1 as [|x l l' _ IH|x y l|l l' l'' _ IH _ IH']; simpl.
  - done.
  - by rewrite IH.
  - by rewrite !andb_assoc, (andb_comm (f y)).
  - by rewrite IH.
Qed.

Lemma checkVerdict_context a context context' manifest :
  Negative context' = Negative context →
  checkVerdict a context' manifest = checkVerdict a context manifest.
Proof. intros Hneg. unfold checkVerdict. by rewrite (checkManifest_context a context). Qed.

(** X10. Over manifests whose raw fields are absent or strings, the
    verdict does not depend on the order of the manifests (nor on the
    fail-fast flag): two contexts with the same negation flag and render
    error whose collections are permutations of each other return the
    same verdict, for every validator. *)
Theorem Validate_verdict_ignores_order a context context' :
  Negative context' = Negative context →
  RenderError context' = RenderError context →
  getManifests context' ≡ₚ getManifests context →
  forallb rawIsText (getManifests context) = true →
  ∃ b d d', Validate a context = Return (b, d) ∧ Validate a context' = Return (b, d').
Proof.
  intros Hneg Herr Hperm Htext.
  destruct (decide (ErrorMessage a ≠ "" ∧ ErrorPattern a ≠ "")) as [Hboth|Hnot].
  { unfold Validate. rewrite !decide_True by done. by eexists _, _, _. }
  destruct (RenderError context) as [renderError|] eqn:Hre.
  - unfold Validate. rewrite Herr, Hre.
    destruct (decide (ErrorMessage a ≠ "" ∧ ErrorPattern a ≠ "")); [done |].
    unfold validateErrorPattern, validateErrorMessage. rewrite Hneg.
    destruct (decide (ErrorPattern a ≠ "")); [destruct (Compile (ErrorPattern a)) |
      destruct (decide (ErrorMessage a ≠ ""))]; simpl;
      try destruct (eqb _ (Negative context)); by eexists _, _, _.
  - assert (forallb rawIsText (getManifests context') = true) as Htext'
      by (by rewrite (forallb_Permutation _ _ _ Hperm)).
    destruct (Validate_verdict_text a context Hnot Hre Htext) as [d ->].
    destruct (Validate_verdict_text a context' Hnot Herr Htext') as [d' ->].
    eexists _, d, d'. split; [done |]. do 2 f_equal.
    rewrite Hneg, (forallb_Permutation _ _ _ Hperm). f_equal.
    + apply forallb_pointwise. intros m. by apply checkVerdict_context.
    + f_equal. destruct (getManifests context') as [|m' ms'] eqn:Hms'.
      * apply Permutation_nil in Hperm. by rewrite Hperm.
      * destruct (getManifests context); [| done].
        symmetry in Hperm. by apply Permutation_nil in Hperm.
Qed.

Lemma validateManifests_loop_context a context context' manifests :
  Negative context' = Negative context →
  FailFast context' = FailFast context →
  ∀ idx acc errs,
    validateManifests_loop a context' idx manifests acc errs
    = validateManifests_loop a context idx manifests acc errs.
Proof.
  intros Hneg Hff. induction manifests as [|manifest rest IH]; intros idx acc errs;
    [done |].
  rewrite !validateManifests_loop_cons, Hneg, Hff.
  rewrite (checkManifest_context a context context') by done.
  destruct (bool_decide _ && negb _); [apply IH |].
  destruct (checkManifest a context idx manifest) as [[ok ds]|]; [| done]. simpl.
  destruct (negb _ && FailFast context); [done | apply IH].
Qed.

(** A loop that ends in success over a longer collection ends in success
    over every prefix of it. *)
Lemma validateManifests_loop_app_success a context manifests more :
  ∀ idx acc errs d,
    validateManifests_loop a context idx (manifests ++ more) acc errs = Return (true, d) →
    validateManifests_loop a context idx manifests acc errs = Return (true, errs).
Proof.
  induction manifests as [|manifest rest IH]; intros idx acc errs d; simpl app.
  - intros Hloop. apply validateManifests_loop_extends in Hloop as [_ Hacc].
    rewrite Hacc; reflexivity.
  - rewrite !validateManifests_loop_cons.
    destruct (bool_decide _ && negb _); [apply IH |].
    destruct (checkManifest a context idx manifest) as [[ok ds]|] eqn:Hcheck; [| done].
    simpl. destruct (negb _ && FailFast context) eqn:Hbreak.
    + intros ?; exec_inv. apply andb_prop in Hbreak as [Hf _].
      by replace (determineSuccess idx acc ok) with true in Hf.
    + intros Hloop.
      destruct (validateManifests_loop_extends _ _ _ _ _ _ _ _ Hloop) as [_ Hacc].
      specialize (Hacc eq_refl). pose proof Hacc as Hok.
      unfold determineSuccess in Hok. apply andb_prop in Hok as [_ ->].
      apply (checkManifest_outcome _ _ _ _ true) in Hcheck. subst ds.
      apply IH in Hloop. rewrite Hloop. by rewrite app_nil_r.
Qed.

(** X11. Further manifests never rescue an assertion: if the assertion
    passes on a collection extended by further manifests, it passes
    already (and without diagnostics) on the non-empty collection
    itself. *)
Theorem Validate_passes_before_more_manifests a context context' more d :
  Negative context' = Negative context →
  FailFast context' = FailFast context →
  RenderError context' = RenderError context →
  getManifests context' = getManifests context ++ more →
  getManifests context ≠ [] →
  Validate a context' = Return (true, d) →
  Validate a context = Return (true, []).
Proof.
  intros Hneg Hff Herr Hms Hne. unfold Validate. rewrite Herr, Hms.
  destruct (decide (ErrorMessage a ≠ "" ∧ ErrorPattern a ≠ "")); [intros ?; exec_inv |].
  destruct (RenderError context) as [renderError|].
  - unfold validateErrorPattern, validateErrorMessage. rewrite Hneg.
    destruct (decide (ErrorPattern a ≠ "")); [destruct (Compile (ErrorPattern a)) |
      destruct (decide (ErrorMessage a ≠ ""))]; simpl;
      try destruct (eqb _ (Negative context)); intros ?; by exec_inv.
  - unfold validateManifests.
    rewrite (validateManifests_loop_context a context context') by done.
    destruct (validateManifests_loop a context 0 (getManifests context ++ more) true [])
      as [[b ds]|] eqn:Hloop; [| done].
    simpl. destruct (bool_decide _ && negb _); simpl; intros ?; exec_inv.
    apply validateManifests_loop_app_success in Hloop. rewrite Hloop. simpl.
    destruct (getManifests context); done.
Qed.

(** *** An assertion and its negation *)

Lemma checkManifest_negation a context context' idx manifest ok ds :
  compares a →
  Negative context' = negb (Negative context) →
  checkManifest a context idx manifest = Return (ok, ds) →
  ∃ ds', checkManifest a context' idx manifest = Return (negb ok, ds').
Proof.
  intros Hcmp Hneg. unfold checkManifest.
  destruct Hcmp as [(Hm & Hp & p & Hc) | (Hp & Hm)].
  - destruct (decide (ErrorPattern a ≠ "")); [| done].
    unfold validateErrorPattern. rewrite Hc, Hneg.
    destruct (Negative context), (index manifest RAW) as [|s| |]; simpl;
      try destruct (MatchString p s); simpl; intros ?; exec_inv; by eexists.
  - destruct (decide (ErrorPattern a ≠ "")); [done |].
    destruct (decide (ErrorMessage a ≠ "")); [| done].
    unfold validateErrorMessage. rewrite Hneg.
    destruct (Negative context), (index manifest RAW) as [|s| |]; simpl;
      try destruct (bool_decide (ErrorMessage a = s)); simpl;
      intros ?; exec_inv; by eexists.
Qed.

(** A loop that ends in success has passed its first check. *)
Lemma validateManifests_loop_head_success a context idx manifest rest acc errs d :
  a ≠ zeroValidator →
  validateManifests_loop a context idx (manifest :: rest) acc errs = Return (true, d) →
  ∃ ds, checkManifest a context idx manifest = Return (true, ds).
Proof.
  intros Hz. rewrite validateManifests_loop_cons.
  rewrite bool_decide_eq_false_2 by done. simpl.
  destruct (checkManifest a context idx manifest) as [[ok ds]|]; [| done]. simpl.
  destruct (negb _ && FailFast context) eqn:Hbreak.
  - intros ?; exec_inv. apply andb_prop in Hbreak as [Hf _].
    by replace (determineSuccess idx acc ok) with true in Hf.
  - intros Hloop. apply validateManifests_loop_extends in Hloop as [_ Hacc].
    specialize (Hacc eq_refl). unfold determineSuccess in Hacc.
    apply andb_prop in Hacc as [_ ->]. by eexists.
Qed.

(** X12. When the validator has a comparison to make (exactly one
    parameter, a pattern that compiles), an assertion and its negation
    never both pass: on the same render error or manifests, whatever the
    fail-fast flags. They may both fail (manifests of which some match
    and some do not). *)
Theorem Validate_and_negation_do_not_both_pass a context context' d :
  compares a →
  Negative context' = negb (Negative context) →
  RenderError context' = RenderError context →
  getManifests context' = getManifests context →
  Validate a context = Return (true, d) →
  ∀ d', Validate a context' ≠ Return (true, d').
Proof.
  intros Hcmp Hneg Herr Hms Hpass d'. revert Hpass.
  unfold Validate. rewrite Herr, Hms.
  destruct (decide (ErrorMessage a ≠ "" ∧ ErrorPattern a ≠ "")); [intros ?; exec_inv |].
  destruct (RenderError context) as [renderError|].
  - destruct Hcmp as [(Hm & Hp & p & Hc) | (Hp & Hm)].
    + destruct (decide (ErrorPattern a ≠ "")); [| done].
      unfold validateErrorPattern. rewrite Hc, Hneg. simpl.
      destruct (MatchString p (Error renderError)), (Negative context); simpl;
        intros ? ?; exec_inv.
    + destruct (decide (ErrorPattern a ≠ "")); [done |].
      destruct (decide (ErrorMessage a ≠ "")); [| done].
      unfold validateErrorMessage. rewrite Hneg. simpl.
      destruct (bool_decide (ErrorMessage a = Error renderError)), (Negative context);
        simpl; intros ? ?; exec_inv.
  - unfold validateManifests.
    destruct (getManifests context) as [|manifest rest].
    + rewrite Hneg. simpl. destruct (Negative context); simpl; intros ? ?; exec_inv.
    + destruct (validateManifests_loop a context 0 (manifest :: rest) true [])
        as [[b ds]|] eqn:Hloop; [| done].
      destruct (validateManifests_loop a context' 0 (manifest :: rest) true [])
        as [[b' ds']|] eqn:Hloop'; [| done].
      simpl. intros ? ?; exec_inv.
      apply validateManifests_loop_head_success in Hloop as [e He];
        [| by apply compares_not_zero].
      apply validateManifests_loop_head_success in Hloop' as [e' He'];
        [| by apply compares_not_zero].
      destruct (checkManifest_negation _ _ _ _ _ _ _ Hcmp Hneg He) as [e'' He''].
      rewrite He' in He''. by exec_inv.
Qed.

(** *** The reports of the failures *)

Lemma checkManifest_compares a context idx manifest :
  compares a →
  rawIsText manifest = true →
  checkManifest a context idx manifest
  = Return (if checkVerdict a context manifest then (true, [])
            else (false, failInfo a (index manifest RAW) idx (-1) (Negative context))).
Proof.
  intros Hcmp. unfold rawIsText, checkVerdict, checkManifest.
  destruct Hcmp as [(Hm & Hp & p & Hc) | (Hp & Hm)].
  - destruct (decide (ErrorPattern a ≠ "")); [| done].
    unfold validateErrorPattern. rewrite Hc.
    destruct (Negative context), (index manifest RAW) as [|s| |];
      try discriminate; simpl; try done; by destruct (MatchString p s).
  - destruct (decide (ErrorPattern a ≠ "")); [done |].
    destruct (decide (ErrorMessage a ≠ "")); [| done].
    unfold validateErrorMessage.
    destruct (Negative context), (index manifest RAW) as [|s| |];
      try discriminate; simpl; try done;
      by destruct (bool_decide (ErrorMessage a = s)).
Qed.

Lemma validateManifests_loop_reports a context manifests :
  compares a →
  forallb rawIsText manifests = true →
  ∀ idx acc errs,
    acc = true ∨ FailFast context = false →
    validateManifests_loop a context idx manifests acc errs
    = Return (acc && forallb (checkVerdict a context) manifests,
              errs ++ failureReports a context idx manifests).
Proof.
  intros Hcmp. induction manifests as [|manifest rest IH]; intros Htext idx acc errs Hacc.
  - simpl. by rewrite andb_true_r, app_nil_r.
  - simpl in Htext. apply andb_prop in Htext as [Hm Hrest].
    rewrite validateManifests_loop_cons.
    rewrite bool_decide_eq_false_2 by (by apply compares_not_zero).
    rewrite checkManifest_compares by done. simpl.
    destruct (checkVerdict a context manifest); simpl; unfold determineSuccess.
    + rewrite !andb_true_r, app_nil_r.
      destruct Hacc as [-> | Hff]; simpl.
      * by apply IH; [| left].
      * rewrite Hff, andb_false_r. by apply IH; [| right].
    + rewrite !andb_false_r. simpl.
      destruct (FailFast context) eqn:Hff; [by rewrite app_nil_r |].
      rewrite IH by (done || by right). by rewrite app_assoc.
Qed.

(** X13. When the validator has a comparison to make, there is no render
    error and the manifests (at least one) have raw fields that are
    absent or strings, the diagnostics are exactly the fail diagnostics of
    the manifests whose check fails, each built with the index of its
    manifest, in index order and with nothing for the manifests that
    pass; under fail-fast, the fail diagnostic of the first failing
    manifest alone. *)
Theorem Validate_reports_failing_manifests a context :
  compares a →
  RenderError context = None →
  forallb rawIsText (getManifests context) = true →
  getManifests context ≠ [] →
  Validate a context
  = Return (forallb (checkVerdict a context) (getManifests context),
            failureReports a context 0 (getManifests context)).
Proof.
  intros Hcmp Herr Htext Hne. unfold Validate.
  destruct (decide (ErrorMessage a ≠ "" ∧ ErrorPattern a ≠ "")) as [[Hm Hp]|_].
  { by destruct Hcmp as [(Hm' & _) | (Hp' & _)]. }
  rewrite Herr. unfold validateManifests.
  rewrite validateManifests_loop_reports by (done || by left). simpl.
  by destruct (getManifests context).
Qed.

(** *** The iteration *)






End ValidatorBehaviour.

(** ** The further behaviour at concrete inputs *)

Section BehaviourInstances.
Import GoRegexp Rendering Samples.

Lemma withPattern_a_compares : compares (withPattern "a").
Proof. left. split; [done |]. split; [done |]. by eexists. Qed.

Lemma Validate_success_has_no_diagnostics_witness :
  let a := withPattern "a" in
  let c := context [document "a"; document "banana"] false false None in
  Validate a c = Return (true, []) ∧ @nil string = [].
Proof.
  at_input.
  apply (Validate_success_has_no_diagnostics (RE := package) a c []); done.
Defined.

Lemma Validate_returns_witness :
  let a := withPattern "a(" in
  let c := context [document "a"; ∅] true false None in
  (is_Some (RenderError c) ∨ forallb rawIsText (getManifests c) = true)
  ∧ ∃ r, Validate a c = Return r.
Proof.
  intros a c. split; [by right |].
  apply (Validate_returns (RE := package) a c); by right.
Defined.

Lemma Validate_message_over_manifests_witness :
  let a := withMessage "no such file" in
  let c := context [document "no such file"; document "no such file here"] false false None in
  ErrorPattern a = ""
  ∧ ErrorMessage a ≠ ""
  ∧ RenderError c = None
  ∧ forallb rawIsText (getManifests c) = true
  ∧ ∃ d, Validate a c = Return (false, d).
Proof.
  at_input.
  apply (Validate_message_over_manifests (RE := package) a c); done.
Defined.

Lemma Validate_render_error_message_witness :
  let a := withMessage "bad indentation" in
  let renderError := errorString "template: bad indentation" in
  let c := context [] false false (Some renderError) in
  ErrorPattern a = ""
  ∧ ErrorMessage a ≠ ""
  ∧ RenderError c = Some renderError
  ∧ Validate a c
    = Return (false, failInfo a (IString "template: bad indentation") (-1) (-1) false).
Proof.
  at_input.
  apply (Validate_render_error_message (RE := package) a c renderError); done.
Defined.

Lemma Validate_render_error_negation_witness :
  let a := withPattern "a" in
  let renderError := errorString "template: bad indentation" in
  let c := context [] false false (Some renderError) in
  let c' := context [document "a"] true true (Some renderError) in
  compares a
  ∧ RenderError c = Some renderError
  ∧ RenderError c' = Some renderError
  ∧ Negative c' = negb (Negative c)
  ∧ ∃ b d d', Validate a c = Return (b, d) ∧ Validate a c' = Return (negb b, d').
Proof.
  intros a renderError c c'. split; [apply withPattern_a_compares |]. at_input.
  apply (Validate_render_error_negation (RE := package) a c c' renderError);
    [apply withPattern_a_compares | done | done | done].
Defined.

Lemma Validate_panics_on_other_raw_witness :
  let a := withPattern "a" in
  let c := context [document "a"; numbered 3; document "a"] true false None in
  compares a
  ∧ RenderError c = None
  ∧ FailFast c = false
  ∧ forallb rawIsText (getManifests c) = false
  ∧ Validate a c = Panic.
Proof.
  intros a c. split; [apply withPattern_a_compares |]. at_input.
  apply (Validate_panics_on_other_raw (RE := package) a c);
    [apply withPattern_a_compares | done | done | done].
Defined.

Lemma Validate_fail_fast_keeps_verdict_witness :
  let a := withPattern "a" in
  let manifests := [document "a"; document "b"; document "c"] in
  let c := context manifests false false None in
  let c' := context manifests false true None in
  let d := failInfo a (IString "b") 1 (-1) false ++ failInfo a (IString "c") 2 (-1) false in
  Negative c' = Negative c
  ∧ RenderError c' = RenderError c
  ∧ getManifests c' = getManifests c
  ∧ FailFast c = false
  ∧ FailFast c' = true
  ∧ Validate a c = Return (false, d)
  ∧ ∃ d', Validate a c' = Return (false, d') ∧ d' `prefix_of` d.
Proof.
  at_input.
  apply (Validate_fail_fast_keeps_verdict (RE := package) a c c' false d); done.
Defined.

Lemma Validate_invalid_pattern_over_manifests_witness :
  let a := withPattern "a(" in
  let c := context [document "a"; numbered 3] false false None in
  let err := errorString "error parsing regexp: missing closing ): `a(`" in
  ErrorMessage a = ""
  ∧ ErrorPattern a ≠ ""
  ∧ Compile (ErrorPattern a) = inr err
  ∧ RenderError c = None
  ∧ Validate a c
    = Return (false, concat (replicate 2 (splitInfof errorFormat (-1) (-1) [Error err]))).
Proof.
  at_input.
  apply (Validate_invalid_pattern_over_manifests (RE := package) a c err); done.
Defined.

Lemma Validate_verdict_ignores_order_witness :
  let a := withPattern "a" in
  let c := context [document "a"; document "b"] false false None in
  let c' := context [document "b"; document "a"] false true None in
  Negative c' = Negative c
  ∧ RenderError c' = RenderError c
  ∧ getManifests c' ≡ₚ getManifests c
  ∧ forallb rawIsText (getManifests c) = true
  ∧ ∃ b d d', Validate a c = Return (b, d) ∧ Validate a c' = Return (b, d').
Proof.
  intros a c c'. split; [done |]. split; [done |]. split; [apply perm_swap |].
  split; [done |].
  apply (Validate_verdict_ignores_order (RE := package) a c c');
    [done | done | apply perm_swap | done].
Defined.

Lemma Validate_passes_before_more_manifests_witness :
  let a := withPattern "a" in
  let c := context [document "a"] false false None in
  let c' := context [document "a"; document "banana"] false false None in
  Negative c' = Negative c
  ∧ FailFast c' = FailFast c
  ∧ RenderError c' = RenderError c
  ∧ getManifests c' = getManifests c ++ [document "banana"]
  ∧ getManifests c ≠ []
  ∧ Validate a c' = Return (true, [])
  ∧ Validate a c = Return (true, []).
Proof.
  at_input.
  apply (Validate_passes_before_more_manifests (RE := package) a c c'
           [document "banana"] []); done.
Defined.

Lemma Validate_and_negation_do_not_both_pass_witness :
  let a := withPattern "a" in
  let c := context [document "a"] false false None in
  let c' := context [document "a"] true true None in
  compares a
  ∧ Negative c' = negb (Negative c)
  ∧ RenderError c' = RenderError c
  ∧ getManifests c' = getManifests c
  ∧ Validate a c = Return (true, [])
  ∧ ∀ d', Validate a c' ≠ Return (true, d').
Proof.
  intros a c c'. split; [apply withPattern_a_compares |]. at_input.
  apply (Validate_and_negation_do_not_both_pass (RE := package) a c c' []);
    [apply withPattern_a_compares | done | done | done | done].
Defined.

Lemma Validate_reports_failing_manifests_witness :
  let a := withPattern "a" in
  let c := context [document "b"; document "a"; ∅] false false None in
  compares a
  ∧ RenderError c = None
  ∧ forallb rawIsText (getManifests c) = true
  ∧ getManifests c ≠ []
  ∧ Validate a c
    = Return (false, failInfo a (IString "b") 0 (-1) false
                     ++ failInfo a INil 2 (-1) false).
Proof.
  intros a c. split; [apply withPattern_a_compares |]. at_input.
  etrans.
  - apply (Validate_reports_failing_manifests (RE := package) a c);
      [apply withPattern_a_compares | done | done | done].
  - by vm_compute.
Defined.


End BehaviourInstances.
